(** * Verification of the numerical core of [datahandling.py]

    A shallow embedding of the functions of
    [datahandling/datahandling.py] that carry the peak-fitting,
    parameter-extraction, filtering and collision-counting logic.

    Conventions of the embedding:
    - Python floats that are only compared, added, subtracted, multiplied
      and divided are exact rationals [Q] (every finite double is one);
      functions that need [sqrt], [pi] or [log10] are stated over [R].
    - Python exceptions are values of [exn]; a function that can raise
      returns a [result].
    - Calls into SciPy (filter design, filtering, FFT, curve fitting) are
      operations of an interface record that the embedded function takes. *)

From Stdlib Require Import String List Arith ZArith QArith Qabs Qround Bool.
From Stdlib Require Import Reals Psatz.
From Stdlib Require Import Sorting.Sorted.
Import ListNotations.
Close Scope Q_scope.

(** ** Python runtime: exceptions and results *)

Module Py.

Inductive exn : Type :=
| IndexError
| ValueError (msg : string)
| NameError (name : string)
| UnboundLocalError (name : string)
| RuntimeError
| TypeError
| ZeroDivisionError
| AttributeError (name : string)
| NegativeStdDev.

Inductive result (A : Type) : Type :=
| Ok (a : A)
| Raise (e : exn).

Arguments Ok {A} a.
Arguments Raise {A} e.

Local Open Scope Q_scope.

Definition bind {A B : Type} (r : result A) (k : A -> result B) : result B :=
  match r with
  | Ok a => k a
  | Raise e => Raise e
  end.

Definition returns {A : Type} (r : result A) : bool :=
  match r with Ok _ => true | Raise _ => false end.

(** [seq[i]] with Python's negative-index convention. *)
Definition getitem {A : Type} (l : list A) (i : Z) : result A :=
  let n := Z.of_nat (length l) in
  let j := if (i <? 0)%Z then (n + i)%Z else i in
  if ((0 <=? j)%Z && (j <? n)%Z)%bool
  then match nth_error l (Z.to_nat j) with
       | Some a => Ok a
       | None => Raise IndexError
       end
  else Raise IndexError.

(** [seq[lo:hi]] for non-negative bounds. *)
Definition slice {A : Type} (l : list A) (lo hi : nat) : list A :=
  firstn (hi - lo) (skipn lo l).

(** [seq[0::k]] for a positive step [k]. *)
Fixpoint stride_from {A : Type} (skip k : nat) (l : list A) : list A :=
  match l with
  | [] => []
  | a :: t =>
      match skip with
      | O => a :: stride_from (k - 1) k t
      | S s => stride_from s k t
      end
  end.

Definition stride {A : Type} (k : nat) (l : list A) : list A :=
  stride_from 0 k l.

(** [x < y] on exact numbers. *)
Definition Qltb (x y : Q) : bool := negb (Qle_bool y x).

(** Division of Python floats. *)
Definition pydiv (x y : Q) : result Q :=
  if Qeq_bool y 0 then Raise ZeroDivisionError else Ok (x / y).

(** [list(seq).index(x)]: the first position holding a value equal to [x]. *)
Fixpoint index_from (i : nat) (l : list Q) (x : Q) : result nat :=
  match l with
  | [] => Raise (ValueError "x is not in list")
  | a :: t => if Qeq_bool a x then Ok i else index_from (S i) t x
  end.

Definition index (l : list Q) (x : Q) : result nat := index_from 0 l x.

(** The builtins [max] and [min] on a sequence. *)
Definition pymax (l : list Q) : result Q :=
  match l with
  | [] => Raise (ValueError "max() arg is an empty sequence")
  | a :: t => Ok (fold_left (fun m x => if Qltb m x then x else m) t a)
  end.

Definition pymin (l : list Q) : result Q :=
  match l with
  | [] => Raise (ValueError "min() arg is an empty sequence")
  | a :: t => Ok (fold_left (fun m x => if Qltb x m then x else m) t a)
  end.

End Py.

Import Py.

Declare Scope py_scope.
Notation "x <- c ;; k" := (Py.bind c (fun x => k))
  (at level 61, c at next level, right associativity) : py_scope.
Open Scope py_scope.

(** ** Data objects *)

Module Data.

(** A Python float for the code that tests for infinities and NaN. *)
Inductive float : Type :=
| Fin (q : Q)
| PInf
| NInf
| NaN.

(** [uncertainties.ufloat]: nominal value [n] and standard deviation. *)
Record ufloat : Type := { n : float; std_dev : float }.

(** The attributes of a [DataObject] that the numerical core reads and
    writes; the fitted attributes are unset until a fit has run. *)
Record DataObject : Type := {
  time : list Q;
  voltage : list Q;
  SampleFreq : Q;
  freqs : list Q;
  PSD : list Q;
  A : option ufloat;
  Ftrap : option ufloat;
  Gamma : option ufloat
}.

End Data.

(** ** Nearest-value locator: [bisect_left] and [take_closest] *)

Module Locator.

Local Open Scope Q_scope.

(** The loop of the standard [bisect.bisect_left]:
    [while lo < hi: mid = (lo+hi)//2; if a[mid] < x: lo = mid+1 else: hi = mid].
    [fuel] bounds the number of iterations. *)
Fixpoint bisect_loop (fuel : nat) (a : list Q) (x : Q) (lo hi : nat) : nat :=
  match fuel with
  | O => lo
  | S f =>
      if (lo <? hi)%nat then
        let mid := ((lo + hi) / 2)%nat in
        if Qltb (nth mid a 0) x
        then bisect_loop f a x (mid + 1) hi
        else bisect_loop f a x lo mid
      else lo
  end.

Definition bisect_left (a : list Q) (x : Q) : nat :=
  bisect_loop (length a) a x 0 (length a).

Definition take_closest (myList : list Q) (myNumber : Q) : result Q :=
  let pos := bisect_left myList myNumber in
  if (pos =? 0)%nat then getitem myList 0
  else if (pos =? length myList)%nat then getitem myList (-1)
  else
    before <- getitem myList (Z.of_nat pos - 1) ;;
    after <- getitem myList (Z.of_nat pos) ;;
    if Qltb (after - myNumber) (myNumber - before)
    then Ok after
    else Ok before.

End Locator.

(** ** Collision detector: [count_collisions] *)

Module Collisions.

(** [enumerate(seq)] *)
Definition enumerate {A : Type} (l : list A) : list (nat * A) :=
  combine (seq 0 (length l)) l.

(** Loop state of [count_collisions]:
    [(CollisionCount, CollisionIndicies, lastval)]. *)
Definition scan_state : Type := (nat * list nat * bool)%type.

Definition scan_step (st : scan_state) (iv : nat * bool) : scan_state :=
  let '(CollisionCount, CollisionIndicies, lastval) := st in
  let '(i, val) := iv in
  if (val && negb lastval)%bool
  then (CollisionCount + 1, CollisionIndicies ++ [i], val)
  else (CollisionCount, CollisionIndicies, val).

Definition count_collisions (Collisions : list bool) : nat * list nat :=
  let '(CollisionCount, CollisionIndicies, _) :=
    fold_left scan_step (enumerate Collisions) (0, [], true) in
  (CollisionCount, CollisionIndicies).

(** The first sample offset of every out-of-tolerance run of a flag
    sequence: the offsets [i] with [c[i]] set and either [i = 0] or
    [c[i-1]] clear. *)
Definition is_run_start (c : list bool) (i : nat) : bool :=
  (nth i c false && ((i =? 0) || negb (nth (i - 1) c false)))%bool.

Definition run_starts (c : list bool) : list nat :=
  filter (is_run_start c) (seq 0 (length c)).

(** The run starts that follow an in-tolerance sample. *)
Definition preceded_run_starts (c : list bool) : list nat :=
  filter (fun i => negb (i =? 0)) (run_starts c).

(** Rising edges of [l] when the sample before it is [lastval] and its
    first sample has offset [base]. *)
Fixpoint edges (base : nat) (lastval : bool) (l : list bool) : list nat :=
  match l with
  | [] => []
  | val :: t =>
      (if (val && negb lastval)%bool then [base] else [])
        ++ edges (S base) val t
  end.

End Collisions.

(** ** The SciPy operations the module calls *)

Module SciPy.

Record ops : Type := {
  (** A pair [(b, a)] of feed-forward and feedback coefficient arrays. *)
  coeffs : Type;
  (** [scipy.signal.iirdesign(wp, ws, gpass, gstop)] *)
  iirdesign : Q * Q -> Q * Q -> Q -> Q -> result coeffs;
  (** Samples of a computed signal, with the test [numpy.isnan]. *)
  sample : Type;
  isnan : sample -> bool;
  (** [scipy.signal.filtfilt(b, a, x)] and [scipy.signal.lfilter(b, a, x)] *)
  filtfilt : coeffs -> list Q -> result (list sample);
  lfilter : coeffs -> list Q -> result (list sample);
  (** Spectral bins, [scipy.fftpack.fft], [scipy.fftpack.ifft], the literal
      [0] stored into a bin, and [numpy.real(2 * z)]. *)
  bin : Type;
  bin_zero : bin;
  fft : list Q -> result (list bin);
  ifft : list bin -> result (list bin);
  real_twice : bin -> sample;
  (** The fitted parameters and their standard errors that [fit_PSD]
      obtains from [scipy.optimize.curve_fit], as a function of the
      spectrum, the bandwidth, the number of smoothing points and the
      initial guesses [(TrapFreqGuess, AGuess, GammaGuess)]; figures are
      not modelled. *)
  fit_PSD : list Q -> list Q -> Q -> nat -> Q -> Q -> Q ->
            result ((Data.float * Data.float * Data.float)
                    * (Data.float * Data.float * Data.float))
}.

(** An instance of the interface that computes: every designed filter is
    the identity, the transform pair is the identity on sample lists, and
    a fit over a bandwidth below 1 does not converge while a wider one
    has standard errors equal to the bandwidth. It serves to run the
    embedded functions on concrete inputs. *)
Definition passthrough : ops := {|
  coeffs := list Q * list Q;
  iirdesign := fun _ _ _ _ => Ok ([1%Q], [1%Q]);
  sample := option Q;
  isnan := fun s => match s with Some _ => false | None => true end;
  filtfilt := fun _ x => Ok (map Some x);
  lfilter := fun _ x => Ok (map Some x);
  bin := Q;
  bin_zero := 0%Q;
  fft := fun x => Ok x;
  ifft := fun x => Ok x;
  real_twice := fun z => Some (2 * z)%Q;
  fit_PSD := fun _ _ bandwidth _ TrapFreqGuess AGuess GammaGuess =>
    if Qltb bandwidth 1 then Raise RuntimeError
    else Ok ((Data.Fin (1 + AGuess), Data.Fin (1 + TrapFreqGuess),
              Data.Fin (1 + GammaGuess)),
             (Data.Fin bandwidth, Data.Fin bandwidth, Data.Fin bandwidth))
|}.

End SciPy.

(** ** Bandpass filter designer: [IIR_filter_design] *)

Module Filter.

Import SciPy.
Local Open Scope Q_scope.

Definition out_of_range : exn :=
  ValueError
    "Need a higher Sample Frequency for this Central Freq, Bandwidth and transition Width".

Definition IIR_filter_design (sp : ops)
    (CentralFreq bandwidth transitionWidth SampleFreq GainStop GainPass : Q)
  : result (coeffs sp) :=
  let NyquistFreq := SampleFreq / 2 in
  if Qltb NyquistFreq (CentralFreq + bandwidth / 2 + transitionWidth)
  then Raise out_of_range
  else
    CentralFreqNormed <- pydiv CentralFreq NyquistFreq ;;
    bandwidthNormed <- pydiv bandwidth NyquistFreq ;;
    transitionWidthNormed <- pydiv transitionWidth NyquistFreq ;;
    let bandpass := (CentralFreqNormed - bandwidthNormed / 2,
                     CentralFreqNormed + bandwidthNormed / 2) in
    let bandstop :=
      (CentralFreqNormed - bandwidthNormed / 2 - transitionWidthNormed,
       CentralFreqNormed + bandwidthNormed / 2 + transitionWidthNormed) in
    iirdesign sp bandpass bandstop GainPass GainStop.

End Filter.

(** ** Multichannel extractor: [get_ZXY_data], [IFFT_filter],
       [get_ZXY_data_IFFT] *)

Module ZXY.

Import SciPy Data.
Local Open Scope Q_scope.

(** What a name bound at module level holds: the filter designer, or an
    object of no concern here (a class, an imported module, another
    function). *)
Inductive global_value (sp : ops) : Type :=
| Designer (f : Q -> Q -> Q -> Q -> Q -> Q -> result (coeffs sp))
| OtherObject.

Arguments Designer {sp} f.
Arguments OtherObject {sp}.

(** The names bound by the [import] statements and the top-level [def]
    and [class] statements of the module, in source order. *)
Definition module_globals (sp : ops) : list (string * global_value sp) :=
  map (fun name => (name, OtherObject))
      ["datahandling"; "_plt"; "_np"; "scipy"; "_bisect_left"; "_curve_fit";
       "_uncertainties"; "Axes3D"; "rcParams"; "_animation"; "glob"; "re";
       "_sns"; "_pd"; "_fnmatch"; "_Pool"; "_cpu_count"; "_minimize";
       "_warnings"; "_hilbert";
       "DataObject"; "ORGTableData"; "load_data"; "multi_load_data";
       "calc_temp"; "fit_curvefit"; "moving_average"; "take_closest";
       "_PSD_fitting_eqn"; "fit_PSD"; "extract_parameters"; "get_ZXY_freqs";
       "get_ZXY_data"; "get_ZXY_data_IFFT"; "animate"; "IFFT_filter"]%string
  ++ [("IIR_filter_design"%string, Designer (Filter.IIR_filter_design sp))]
  ++ map (fun name => (name, OtherObject))
      ["get_freq_response"; "multi_plot_PSD"; "multi_plot_time";
       "multi_subplots_time"; "calc_PSD"; "_GetRealImagArray";
       "_GetComplexConjugateArray"; "fm_discriminator"; "_approx_equal";
       "_is_this_a_collision"; "find_collisions"; "count_collisions";
       "parse_orgtable"]%string.

(** Resolution of a global name at the time a function body runs. *)
Definition load_global (sp : ops) (name : string) : result (global_value sp) :=
  match find (fun entry => String.eqb name (fst entry)) (module_globals sp) with
  | Some entry => Ok (snd entry)
  | None => Raise (NameError name)
  end.

(** Calling the loaded object with
    [(CentralFreq, bandwidth, transitionWidth, SampleFreq, GainStop=...)]. *)
Definition call_designer {sp : ops} (g : global_value sp)
    (CentralFreq bandwidth transitionWidth SampleFreq GainStop : Q)
  : result (coeffs sp) :=
  match g with
  | Designer f =>
      f CentralFreq bandwidth transitionWidth SampleFreq GainStop 0.01
  | OtherObject => Raise TypeError
  end.

Definition unstable_filter : exn :=
  ValueError
    "Value Error: FractionOfSampleFreq must be higher, a sufficiently small sample frequency should be used to produce a working IIR filter.".

(** [seq[lo:hi][0::k]] *)
Definition window {X : Type} (l : list X) (lo hi k : nat) : result (list X) :=
  if (k =? 0)%nat then Raise (ValueError "slice step cannot be zero")
  else Ok (stride k (slice l lo hi)).

(** The bounds [StartIndex], [EndIndex] of the time window; [None] stands
    for the default string ["Default"]. *)
Definition time_window (Data : DataObject) (timeStart timeEnd : option Q)
  : result (nat * nat) :=
  timeStart <- match timeStart with
               | None => getitem (time Data) 0
               | Some t => Ok t
               end ;;
  timeEnd <- match timeEnd with
             | None => getitem (time Data) (-1)
             | Some t => Ok t
             end ;;
  closestStart <- Locator.take_closest (time Data) timeStart ;;
  StartIndex <- index (time Data) closestStart ;;
  closestEnd <- Locator.take_closest (time Data) timeEnd ;;
  EndIndex <- index (time Data) closestEnd ;;
  Ok (StartIndex, EndIndex).

(** One of the three blocks "design, apply, test for NaN". *)
Definition filtered_channel (sp : ops)
    (ApplyFilter : coeffs sp -> list Q -> result (list (sample sp)))
    (f width transition SAMPLEFREQ : Q) (input_signal : list Q)
  : result (list (sample sp)) :=
  IIRFilterDesign <- load_global sp "IIRFilterDesign" ;;
  ba <- call_designer IIRFilterDesign f width transition SAMPLEFREQ 100 ;;
  data <- ApplyFilter ba input_signal ;;
  if existsb (isnan sp) data then Raise unstable_filter else Ok data.

(** The body of [if ShowFig == True:]; of the plotting only the
    resolution of the names it uses is modelled. *)
Definition show_psd_figure (sp : ops) : result unit :=
  _ <- load_global sp "scipy" ;;
  _ <- load_global sp "_plt" ;;
  _ <- load_global sp "_ply" ;;
  Ok tt.

Definition get_ZXY_data (sp : ops) (Data : DataObject) (zf xf yf : Q)
    (FractionOfSampleFreq : nat)
    (zwidth xwidth ywidth ztransition xtransition ytransition : Q)
    (filterImplementation : string)
    (timeStart timeEnd : option Q) (ShowFig : bool)
  : result (list (sample sp) * list (sample sp) * list (sample sp) * list Q) :=
  idx <- time_window Data timeStart timeEnd ;;
  let '(StartIndex, EndIndex) := idx in
  SAMPLEFREQ <- pydiv (SampleFreq Data)
                      (inject_Z (Z.of_nat FractionOfSampleFreq)) ;;
  ApplyFilter <-
    (if String.eqb filterImplementation "filtfilt" then Ok (filtfilt sp)
     else if String.eqb filterImplementation "lfilter" then Ok (lfilter sp)
     else Raise (ValueError
                   "filterImplementation must be one of [filtfilt, lfilter]")) ;;
  input_signal <- window (voltage Data) StartIndex EndIndex
                         FractionOfSampleFreq ;;
  zdata <- filtered_channel sp ApplyFilter zf zwidth ztransition SAMPLEFREQ
                            input_signal ;;
  xdata <- filtered_channel sp ApplyFilter xf xwidth xtransition SAMPLEFREQ
                            input_signal ;;
  ydata <- filtered_channel sp ApplyFilter yf ywidth ytransition SAMPLEFREQ
                            input_signal ;;
  _ <- (if ShowFig then show_psd_figure sp else Ok tt) ;;
  timedata <- window (time Data) StartIndex EndIndex FractionOfSampleFreq ;;
  Ok (zdata, xdata, ydata, timedata).

(** [numpy.fft.fftfreq(n)]: the bin frequencies
    [0, 1, ..., (n-1)//2, -(n//2), ..., -1], each times [1/n]. *)
Definition fftfreq (n : nat) : result (list Q) :=
  if (n =? 0)%nat then Raise ZeroDivisionError
  else
    let val := 1 / inject_Z (Z.of_nat n) in
    let N := ((n - 1) / 2 + 1)%nat in
    let p1 := map Z.of_nat (seq 0 N) in
    let p2 := map (fun j => (Z.of_nat j - Z.of_nat (n / 2))%Z)
                  (seq 0 (n / 2)) in
    Ok (map (fun k => inject_Z k * val) (p1 ++ p2)).

(** [seq[i] = v] on an array. *)
Definition setitem {X : Type} (l : list X) (i : nat) (v : X) : result (list X) :=
  if (i <? length l)%nat
  then Ok (firstn i l ++ v :: skipn (S i) l)
  else Raise IndexError.

(** The loop [for i, freq in enumerate(freqs)] of [IFFT_filter]. *)
Fixpoint zero_bins (sp : ops) (lowerFreq upperFreq : Q)
    (ifreqs : list (nat * Q)) (Signalfft : list (bin sp))
  : result (list (bin sp)) :=
  match ifreqs with
  | [] => Ok Signalfft
  | (i, freq) :: rest =>
      if (Qltb freq lowerFreq || Qltb upperFreq freq)%bool
      then
        Signalfft' <- setitem Signalfft i (bin_zero sp) ;;
        zero_bins sp lowerFreq upperFreq rest Signalfft'
      else zero_bins sp lowerFreq upperFreq rest Signalfft
  end.

Definition IFFT_filter (sp : ops) (Signal : list Q)
    (SampleFreq lowerFreq upperFreq : Q) : result (list (sample sp)) :=
  Signalfft <- fft sp Signal ;;
  unit_freqs <- fftfreq (length Signal) ;;
  let freqs := map (fun f => f * SampleFreq) unit_freqs in
  Signalfft <- zero_bins sp lowerFreq upperFreq
                         (Collisions.enumerate freqs) Signalfft ;;
  FilteredSignal <- ifft sp Signalfft ;;
  Ok (map (real_twice sp) FilteredSignal).

Definition get_ZXY_data_IFFT (sp : ops) (Data : DataObject) (zf xf yf : Q)
    (zwidth xwidth ywidth : Q)
    (timeStart timeEnd : option Q) (ShowFig : bool)
  : result (list (sample sp) * list (sample sp) * list (sample sp) * list Q) :=
  idx <- time_window Data timeStart timeEnd ;;
  let '(StartIndex, EndIndex) := idx in
  let SAMPLEFREQ := SampleFreq Data in
  let input_signal := slice (voltage Data) StartIndex EndIndex in
  zdata <- IFFT_filter sp input_signal SAMPLEFREQ
                       (zf - zwidth / 2) (zf + zwidth / 2) ;;
  xdata <- IFFT_filter sp input_signal SAMPLEFREQ
                       (xf - zwidth / 2) (xf + zwidth / 2) ;;
  ydata <- IFFT_filter sp input_signal SAMPLEFREQ
                       (yf - zwidth / 2) (yf + zwidth / 2) ;;
  let timedata := slice (time Data) StartIndex EndIndex in
  Ok (zdata, xdata, ydata, timedata).

(** The extraction as the documentation of the parameters describes it:
    each axis is cut with the band of its own width. *)
Definition get_ZXY_data_IFFT_documented (sp : ops) (Data : DataObject)
    (zf xf yf : Q) (zwidth xwidth ywidth : Q)
    (timeStart timeEnd : option Q) (ShowFig : bool)
  : result (list (sample sp) * list (sample sp) * list (sample sp) * list Q) :=
  idx <- time_window Data timeStart timeEnd ;;
  let '(StartIndex, EndIndex) := idx in
  let SAMPLEFREQ := SampleFreq Data in
  let input_signal := slice (voltage Data) StartIndex EndIndex in
  zdata <- IFFT_filter sp input_signal SAMPLEFREQ
                       (zf - zwidth / 2) (zf + zwidth / 2) ;;
  xdata <- IFFT_filter sp input_signal SAMPLEFREQ
                       (xf - xwidth / 2) (xf + xwidth / 2) ;;
  ydata <- IFFT_filter sp input_signal SAMPLEFREQ
                       (yf - ywidth / 2) (yf + ywidth / 2) ;;
  let timedata := slice (time Data) StartIndex EndIndex in
  Ok (zdata, xdata, ydata, timedata).

(** The test of the loop of [IFFT_filter]: [freq < lowerFreq or
    freq > upperFreq]. *)
Definition out_of_band (lowerFreq upperFreq freq : Q) : bool :=
  (Qltb freq lowerFreq || Qltb upperFreq freq)%bool.

(** A short recording on which the extractors can be run. *)
Definition recording : DataObject := {|
  time := [0; 1; 2; 3; 4; 5; 6; 7];
  voltage := [1; 2; 3; 4; 5; 6; 7; 8];
  SampleFreq := 7;
  freqs := [1; 2; 3; 4; 5];
  PSD := [9; 5; 3; 2; 1];
  A := None;
  Ftrap := None;
  Gamma := None
|}.

End ZXY.

(** ** Peak locator and auto-width search: [get_fit],
       [get_fit_from_peak], [get_fit_auto] *)

Module Fit.

Import SciPy Data.
Local Open Scope Q_scope.

(** *** Arithmetic of Python floats *)

Definition fdiv (x y : float) : result float :=
  match y with
  | Fin d =>
      if Qeq_bool d 0 then Raise ZeroDivisionError
      else match x with
           | Fin a => Ok (Fin (a / d))
           | PInf => Ok (if Qltb 0 d then PInf else NInf)
           | NInf => Ok (if Qltb 0 d then NInf else PInf)
           | NaN => Ok NaN
           end
  | PInf | NInf =>
      match x with
      | Fin _ => Ok (Fin 0)
      | _ => Ok NaN
      end
  | NaN => Ok NaN
  end.

(** [x ** 2] *)
Definition fsquare (x : float) : float :=
  match x with
  | Fin a => Fin (a * a)
  | PInf | NInf => PInf
  | NaN => NaN
  end.

Definition fadd (x y : float) : float :=
  match x, y with
  | NaN, _ | _, NaN => NaN
  | Fin a, Fin b => Fin (a + b)
  | PInf, NInf | NInf, PInf => NaN
  | PInf, _ | _, PInf => PInf
  | NInf, _ | _, NInf => NInf
  end.

(** [x < y]; false as soon as one side is NaN. *)
Definition flt (x y : float) : bool :=
  match x, y with
  | NaN, _ | _, NaN => false
  | Fin a, Fin b => Qltb a b
  | NInf, NInf => false
  | NInf, _ => true
  | _, NInf => false
  | PInf, _ => false
  | Fin _, PInf => true
  end.

(** [uncertainties.ufloat(value, std_dev)]: a negative standard deviation
    that is not infinite is rejected. *)
Definition mk_ufloat (value sd : float) : result ufloat :=
  match sd with
  | Fin q => if Qltb q 0 then Raise NegativeStdDev
             else Ok {| n := value; std_dev := sd |}
  | _ => Ok {| n := value; std_dev := sd |}
  end.

(** [ufloat(NaN, NaN)] *)
Definition nan_val : ufloat := {| n := NaN; std_dev := NaN |}.

(** *** Methods: state, warnings and exceptions *)

(** A method runs on the data object and the warnings issued so far, and
    leaves both behind whether it returns or raises. *)
Definition state : Type := (DataObject * list string)%type.

Definition M (X : Type) : Type := state -> result X * state.

Definition ret {X : Type} (x : X) : M X := fun s => (Ok x, s).

Definition mbind {X Y : Type} (c : M X) (k : X -> M Y) : M Y :=
  fun s => match c s with
           | (Ok x, s') => k x s'
           | (Raise e, s') => (Raise e, s')
           end.

Definition lift {X : Type} (r : result X) : M X := fun s => (r, s).

Definition warn (msg : string) : M unit :=
  fun s => (Ok tt, (fst s, snd s ++ [msg])).

Definition self : M DataObject := fun s => (Ok (fst s), s).

Definition set_self (d : DataObject) : M unit := fun s => (Ok tt, (d, snd s)).

(** [try: c except E: handler], for the exceptions [E] that [catches]
    accepts. *)
Definition try_except {X : Type} (c : M X) (catches : exn -> bool)
    (handler : M X) : M X :=
  fun s => match c s with
           | (Raise e, s') => if catches e then handler s' else (Raise e, s')
           | r => r
           end.

Notation "x <~ c ;; k" := (mbind c (fun x => k))
  (at level 61, c at next level, right associativity).

Definition set_A (u : ufloat) : M unit :=
  d <~ self ;;
  set_self {| time := time d; voltage := voltage d; SampleFreq := SampleFreq d;
              freqs := freqs d; PSD := PSD d;
              A := Some u; Ftrap := Ftrap d; Gamma := Gamma d |}.

Definition set_Ftrap (u : ufloat) : M unit :=
  d <~ self ;;
  set_self {| time := time d; voltage := voltage d; SampleFreq := SampleFreq d;
              freqs := freqs d; PSD := PSD d;
              A := A d; Ftrap := Some u; Gamma := Gamma d |}.

Definition set_Gamma (u : ufloat) : M unit :=
  d <~ self ;;
  set_self {| time := time d; voltage := voltage d; SampleFreq := SampleFreq d;
              freqs := freqs d; PSD := PSD d;
              A := A d; Ftrap := Ftrap d; Gamma := Some u |}.

(** Reading an attribute that may not have been assigned yet. *)
Definition attribute {X : Type} (name : string) (field : DataObject -> option X)
  : M X :=
  d <~ self ;;
  match field d with
  | Some x => ret x
  | None => lift (Raise (AttributeError name))
  end.

Definition is_IndexError (e : exn) : bool :=
  match e with IndexError => true | _ => false end.

Definition is_TypeError (e : exn) : bool :=
  match e with TypeError => true | _ => false end.

Definition is_RuntimeError (e : exn) : bool :=
  match e with RuntimeError => true | _ => false end.

(** *** [DataObject.get_fit] *)

(** Returns [(self.A, self.Ftrap, self.Gamma)]; printing and figures are
    not modelled. *)
Definition get_fit (sp : ops) (TrapFreq WidthOfPeakToFit A_Initial Gamma_Initial : Q)
    (NMovAveToFit : nat) (Silent MakeFig ShowFig : bool)
  : M (ufloat * ufloat * ufloat) :=
  d <~ self ;;
  fit <~ lift (fit_PSD sp (freqs d) (PSD d) WidthOfPeakToFit NMovAveToFit
                       TrapFreq A_Initial Gamma_Initial) ;;
  let '((P0, P1, P2), (E0, E1, E2)) := fit in
  a <~ lift (mk_ufloat P0 E0) ;;
  _ <~ set_A a ;;
  f <~ lift (mk_ufloat P1 E1) ;;
  _ <~ set_Ftrap f ;;
  g <~ lift (mk_ufloat P2 E2) ;;
  _ <~ set_Gamma g ;;
  ret (a, f, g).

(** *** [DataObject.get_fit_from_peak] *)

Definition too_small : string := "range is too small, returning NaN".
Definition too_small_to_fit : string :=
  "range is too small to fit, returning NaN".

(** [list(seq).index(take_closest(seq, x))] *)
Definition closest_index (l : list Q) (x : Q) : result nat :=
  c <- Locator.take_closest l x ;;
  index l c.

(** [MaxPSD], [CentralFreq], [centralIndex] and [MinPSD] of the window
    [lowerIndex:upperIndex] of [self.freqs], [self.PSD]. *)
Definition locate_peak (self_freqs self_PSD : list Q) (lowerIndex upperIndex : nat)
  : result (Q * Q * nat * Q) :=
  MaxPSD <- pymax (slice self_PSD lowerIndex upperIndex) ;;
  peak <- index self_PSD MaxPSD ;;
  CentralFreq <- getitem self_freqs (Z.of_nat peak) ;;
  centralIndex <- index self_freqs CentralFreq ;;
  MinPSD <- pymin (slice self_PSD lowerIndex upperIndex) ;;
  Ok (MaxPSD, CentralFreq, centralIndex, MinPSD).

(** The body of each [try] that looks for the half-maximum on one side
    of the peak: the index and the frequency found. *)
Definition half_max_side (self_freqs self_PSD : list Q) (lo hi : nat) (HalfMax : Q)
  : result (nat * Q) :=
  c <- Locator.take_closest (slice self_PSD lo hi) HalfMax ;;
  SideOfPeakIndex <- index self_PSD c ;;
  SideOfPeak <- getitem self_freqs (Z.of_nat SideOfPeakIndex) ;;
  Ok (SideOfPeakIndex, SideOfPeak).

Definition return_nan (msg : string) : M (ufloat * ufloat * ufloat) :=
  _ <~ warn msg ;;
  ret (nan_val, nan_val, nan_val).

(** Returns [(FTrap, A, Gamma)]. *)
Definition get_fit_from_peak (sp : ops) (lowerLimit upperLimit : Q)
    (NumPointsSmoothing : nat) (Silent ShowFig : bool)
  : M (ufloat * ufloat * ufloat) :=
  d <~ self ;;
  lowerIndex <~ lift (closest_index (freqs d) lowerLimit) ;;
  upperIndex <~ lift (closest_index (freqs d) upperLimit) ;;
  if (lowerIndex =? upperIndex)%nat then return_nan too_small
  else
    peak <~ lift (locate_peak (freqs d) (PSD d) lowerIndex upperIndex) ;;
    let '(MaxPSD, CentralFreq, centralIndex, MinPSD) := peak in
    let approx_A := MaxPSD * 1e16 in
    let HalfMax := MinPSD + (MaxPSD - MinPSD) / 2 in
    match half_max_side (freqs d) (PSD d) lowerIndex centralIndex HalfMax with
    | Raise IndexError => return_nan too_small
    | Raise e => lift (Raise e)
    | Ok (LeftSideOfPeakIndex, LeftSideOfPeak) =>
        match half_max_side (freqs d) (PSD d) centralIndex upperIndex
                            HalfMax with
        | Raise IndexError => return_nan too_small
        | Raise e => lift (Raise e)
        | Ok (RightSideOfPeakIndex, RightSideOfPeak) =>
            let FWHM := RightSideOfPeak - LeftSideOfPeak in
            let approx_Gamma := FWHM / 4 in
            caught <~ try_except
              (_ <~ get_fit sp CentralFreq ((upperLimit - lowerLimit) / 2)
                            approx_A approx_Gamma 1 Silent ShowFig ShowFig ;;
               ret false)
              is_TypeError
              (ret true) ;;
            if caught : bool then return_nan too_small_to_fit
            else
              FTrap <~ attribute "Ftrap" Ftrap ;;
              A <~ attribute "A" A ;;
              Gamma <~ attribute "Gamma" Gamma ;;
              ret (FTrap, A, Gamma)
        end
    end.

(** *** [DataObject.get_fit_auto] *)

(** [numpy.arange(start, stop, step)] for a non-zero step. *)
Definition arange (start stop step : Q) : list Q :=
  let len := Z.to_nat (Qceiling ((stop - start) / step)) in
  map (fun i => start + inject_Z (Z.of_nat i) * step) (seq 0 len).

(** [(A.std_dev / A.n)**2 + (Gamma.std_dev / Gamma.n)**2
     + (Ftrap.std_dev / Ftrap.n)**2] *)
Definition TotalSumSquaredError (Ftrap A Gamma : ufloat) : result float :=
  rA <- fdiv (std_dev A) (n A) ;;
  rG <- fdiv (std_dev Gamma) (n Gamma) ;;
  rF <- fdiv (std_dev Ftrap) (n Ftrap) ;;
  Ok (fadd (fadd (fsquare rA) (fsquare rG)) (fsquare rF)).

(** One candidate width: the fit inside [try ... except RuntimeError]. *)
Definition trial (sp : ops) (CentralFreq Width : Q)
  : M (ufloat * ufloat * ufloat) :=
  try_except
    (get_fit_from_peak sp (CentralFreq - Width / 2) (CentralFreq + Width / 2)
                       1 true false)
    is_RuntimeError
    (_ <~ warn "Couldn't find good fit with width" ;;
     ret (nan_val, nan_val, nan_val)).

(** The loop over the candidate widths; its local variables are
    [MinTotalSumSquaredError] and [BestWidth], the latter unbound until a
    candidate has been retained. *)
Fixpoint search (sp : ops) (CentralFreq : Q) (widths : list Q)
    (MinTotalSumSquaredError : float) (BestWidth : option Q)
  : M (float * option Q) :=
  match widths with
  | [] => ret (MinTotalSumSquaredError, BestWidth)
  | Width :: rest =>
      fit <~ trial sp CentralFreq Width ;;
      let '(Ftrap, A, Gamma) := fit in
      Total <~ lift (TotalSumSquaredError Ftrap A Gamma) ;;
      if flt Total MinTotalSumSquaredError
      then search sp CentralFreq rest Total (Some Width)
      else search sp CentralFreq rest MinTotalSumSquaredError BestWidth
  end.

Definition get_fit_auto (sp : ops) (CentralFreq MaxWidth MinWidth WidthIntervals : Q)
    (ShowFig : bool) : M (ufloat * ufloat * ufloat) :=
  found <~ search sp CentralFreq
                  (arange MaxWidth (MinWidth - WidthIntervals) (- WidthIntervals))
                  PInf None ;;
  BestWidth <~ lift match snd found with
                    | Some w => Ok w
                    | None => Raise (UnboundLocalError "BestWidth")
                    end ;;
  _ <~ get_fit_from_peak sp (CentralFreq - BestWidth / 2)
                         (CentralFreq + BestWidth / 2) 1 false ShowFig ;;
  FTrap <~ attribute "Ftrap" Ftrap ;;
  A <~ attribute "A" A ;;
  Gamma <~ attribute "Gamma" Gamma ;;
  ret (FTrap, A, Gamma).


(** The data object after a fit has stored its three results. *)
Definition with_fit (d : DataObject) (a f g : ufloat) : DataObject :=
  {| time := time d; voltage := voltage d; SampleFreq := SampleFreq d;
     freqs := freqs d; PSD := PSD d;
     A := Some a; Ftrap := Some f; Gamma := Some g |}.






(** Two data objects that hold the same recording and spectrum. *)
Definition same_recording (d d' : DataObject) : Prop :=
  time d' = time d /\ voltage d' = voltage d /\
  SampleFreq d' = SampleFreq d /\ freqs d' = freqs d /\ PSD d' = PSD d.

(** A method that leaves the recording and the spectrum as they were,
    whether it returns or raises. *)
Definition keeps_recording {X : Type} (c : M X) : Prop :=
  forall s, same_recording (fst s) (fst (snd (c s))).

(** A spectrum with its peak in the middle, on which the peak locator and
    the search can be run. *)
Definition spectrum : DataObject := {|
  time := [];
  voltage := [];
  SampleFreq := 1;
  freqs := [1; 2; 3; 4; 5; 6; 7];
  PSD := [1; 2; 5; 9; 4; 2; 1];
  A := None;
  Ftrap := None;
  Gamma := None
|}.

End Fit.

(** ** Fit model and physical parameter extractor, over the reals *)

Module Physics.

Local Open Scope R_scope.

(** [uncertainties.ufloat]: a nominal value [n] and a standard deviation. *)
Record ufloat : Type := { n : R; std_dev : R }.

(** The constructor [uncertainties.ufloat(value, std_dev)] rejects a
    negative standard deviation. *)
Definition mk_ufloat (value sd : R) : result ufloat :=
  if Rlt_dec sd 0 then Raise NegativeStdDev
  else Ok {| n := value; std_dev := sd |}.

(** The fitted attributes that [get_fit] leaves on a [DataObject]. *)
Record fitted : Type := { A : ufloat; Ftrap : ufloat; Gamma : ufloat }.






(** Constants that [extract_parameters] binds locally. *)
Definition rho : R := 2200.
Definition dm : R := 0.372e-9.
Definition T0 : R := 300.
Definition kB : R := 1.38e-23.
Definition eta : R := 18.27e-6.

Definition extract_parameters (Pressure PressureErr A AErr Gamma0 Gamma0Err : R)
  : (R * R * R) * (R * R * R) :=
  let Pressure := 100 * Pressure in
  let radius :=
    (0.169 * 9 * PI * eta * dm ^ 2) / (sqrt 2 * rho * kB * T0)
    * Pressure / Gamma0 in
  let err_radius :=
    radius * sqrt (((PressureErr * Pressure) / Pressure) ^ 2
                   + (Gamma0Err / Gamma0) ^ 2) in
  let mass := rho * ((4 * PI * radius ^ 3) / 3) in
  let err_mass := mass * 2 * err_radius / radius in
  let conversionFactor := sqrt (A * PI * mass / (kB * T0 * Gamma0)) in
  let err_conversionFactor :=
    conversionFactor * sqrt ((AErr / A) ^ 2 + (err_mass / mass) ^ 2
                             + (Gamma0Err / Gamma0) ^ 2) in
  ((radius, mass, conversionFactor),
   (err_radius, err_mass, err_conversionFactor)).

Definition radius_of (r : (R * R * R) * (R * R * R)) : R := fst (fst (fst r)).
Definition mass_of (r : (R * R * R) * (R * R * R)) : R := snd (fst (fst r)).
Definition conversionFactor_of (r : (R * R * R) * (R * R * R)) : R :=
  snd (fst r).

(** The method [DataObject.extract_parameters]; the three values it
    returns are also the ones it stores on [self]. *)
Definition DataObject_extract_parameters (self : fitted) (P_mbar P_Error : R)
  : result (ufloat * ufloat * ufloat) :=
  let '((R_, M, ConvFactor), (RErr, MErr, ConvFactorErr)) :=
    extract_parameters P_mbar P_Error
                       (n (A self)) (std_dev (A self))
                       (n (Gamma self)) (std_dev (Gamma self)) in
  Radius <- mk_ufloat R_ RErr ;;
  Mass <- mk_ufloat M MErr ;;
  ConvFactor <- mk_ufloat ConvFactor ConvFactorErr ;;
  Ok (Radius, Mass, ConvFactor).

Definition err_radius_of (r : (R * R * R) * (R * R * R)) : R :=
  fst (fst (snd r)).
Definition err_mass_of (r : (R * R * R) * (R * R * R)) : R :=
  snd (fst (snd r)).
Definition err_conversionFactor_of (r : (R * R * R) * (R * R * R)) : R :=
  snd (snd r).

End Physics.

(** ** Smoothing: [moving_average] *)

Module Smoothing.

Local Open Scope Q_scope.

(** [numpy.cumsum]: the running sums, started from [acc]. *)
Fixpoint cumsum_from (acc : Q) (l : list Q) : list Q :=
  match l with
  | [] => []
  | a :: t => (acc + a) :: cumsum_from (acc + a) t
  end.

Definition cumsum (l : list Q) : list Q := cumsum_from 0 l.

(** Elementwise difference of two arrays of one length. *)
Fixpoint sub_arrays (x y : list Q) : list Q :=
  match x, y with
  | a :: x', b :: y' => (a - b) :: sub_arrays x' y'
  | _, _ => []
  end.

(** [ret = cumsum(array); ret[n:] = ret[n:] - ret[:-n]; return ret[n-1:] / n]
    for a point count [n >= 0]. With [n = 0] the slice [ret[:-0]] is empty,
    and the subtraction cannot be broadcast unless the array is empty. *)
Definition moving_average (array : list Q) (n : nat) : result (list Q) :=
  let ret := cumsum array in
  if (n =? 0)%nat then
    match array with
    | [] => Ok []
    | _ => Raise (ValueError "operands could not be broadcast together")
    end
  else
    let ret := firstn n ret
               ++ sub_arrays (skipn n ret) (firstn (length ret - n) ret) in
    Ok (map (fun x => x / inject_Z (Z.of_nat n)) (skipn (n - 1) ret)).

(** The sum of a sequence. *)
Definition total (l : list Q) : Q := fold_right Qplus 0 l.

End Smoothing.

(** ** FM discriminator and collision flags: [fm_discriminator],
       [_approx_equal], [_is_this_a_collision], [find_collisions] *)

Module Discriminator.

Import Data.
Local Open Scope Q_scope.

(** The two library functions behind the discriminator:
    [scipy.signal.hilbert], which gives the analytic signal as complex
    numbers (real part, imaginary part), and [numpy.arctan2] on a pair
    of floats. *)
Record ops : Type := {
  hilbert : list Q -> result (list (Q * Q));
  arctan2 : Q -> Q -> Q
}.

Definition conj (z : Q * Q) : Q * Q := (fst z, - snd z).

Definition cmul (z w : Q * Q) : Q * Q :=
  (fst z * fst w - snd z * snd w, fst z * snd w + snd z * fst w).

Definition _GetComplexConjugateArray (Array : list (Q * Q)) : list (Q * Q) :=
  map conj Array.

Definition _GetRealImagArray (Array : list (Q * Q)) : list Q * list Q :=
  (map fst Array, map snd Array).

(** Elementwise product of two arrays of one length. *)
Fixpoint mul_arrays (x y : list (Q * Q)) : list (Q * Q) :=
  match x, y with
  | a :: x', b :: y' => cmul a b :: mul_arrays x' y'
  | _, _ => []
  end.

(** Elementwise [arctan2(I, R)]. *)
Fixpoint arctan2_arrays (sp : ops) (I_ R_ : list Q) : list Q :=
  match I_, R_ with
  | i :: I', r :: R' => arctan2 sp i r :: arctan2_arrays sp I' R'
  | _, _ => []
  end.

Definition fm_discriminator (sp : ops) (Signal : list Q) : result (list Q) :=
  S_analytic <- hilbert sp Signal ;;
  let S_analytic_star := _GetComplexConjugateArray S_analytic in
  let S_analytic_hat :=
    mul_arrays (skipn 1 S_analytic)
               (firstn (length S_analytic_star - 1) S_analytic_star) in
  let '(R_, I_) := _GetRealImagArray S_analytic_hat in
  Ok (arctan2_arrays sp I_ R_).

(** Division of NumPy floats: dividing by zero gives an infinity or NaN. *)
Definition np_divide (x y : Q) : float :=
  if Qeq_bool y 0
  then (if Qeq_bool x 0 then NaN else if Qltb 0 x then PInf else NInf)
  else Fin (x / y).

Definition fmul (x : float) (k : Q) : float :=
  match x with
  | Fin q => Fin (q * k)
  | PInf => if Qeq_bool k 0 then NaN else if Qltb 0 k then PInf else NInf
  | NInf => if Qeq_bool k 0 then NaN else if Qltb 0 k then NInf else PInf
  | NaN => NaN
  end.

(** [numpy.mean]: NaN on an empty array. *)
Definition np_mean (l : list Q) : float :=
  np_divide (Smoothing.total l) (inject_Z (Z.of_nat (length l))).

(** [abs(a - b) / a * 100 < tol], for the mean [a] of an array. *)
Definition _approx_equal (a : float) (b tol : Q) : bool :=
  match a with
  | Fin a => Fit.flt (fmul (np_divide (Qabs (a - b)) a) 100) (Fin tol)
  | _ => false
  end.

Definition _is_this_a_collision (ArgList : Q * float * Q) : bool :=
  let '(value, mean_fmd, tolerance) := ArgList in
  if negb (_approx_equal mean_fmd value tolerance) then true else false.

Definition find_collisions (sp : ops) (Signal : list Q) (tolerance : Q)
  : result (list bool) :=
  fmd <- fm_discriminator sp Signal ;;
  let mean_fmd := np_mean fmd in
  Ok (map (fun value => _is_this_a_collision (value, mean_fmd, tolerance)) fmd).

(** An instance of the two library functions that computes, to run the
    detector on concrete inputs: the analytic signal has a zero imaginary
    part and the angle of [(i, r)] is taken to be [i - r]. *)
Definition sample_ops : ops := {|
  hilbert := fun x => Ok (map (fun v => (v, 0)) x);
  arctan2 := fun i r => i - r
|}.

End Discriminator.

(** ** Spectrum queries: [calc_area_under_PSD], [get_ZXY_freqs],
       [plot_phase_space] *)

Module Spectrum.

Import SciPy Data.
Local Open Scope Q_scope.

(** [numpy.where(a == x)[0]]: every position holding a value equal to
    [x], in ascending order. *)
Fixpoint where_from (i : nat) (a : list Q) (x : Q) : list nat :=
  match a with
  | [] => []
  | v :: t =>
      if Qeq_bool v x then i :: where_from (S i) t x
      else where_from (S i) t x
  end.

Definition np_where (a : list Q) (x : Q) : list nat := where_from 0 a x.

(** [int(array)]: only an array of one element converts. *)
Definition int_of_array (w : list nat) : result nat :=
  match w with
  | [i] => Ok i
  | _ => Raise TypeError
  end.

(** The builtin [sum]: [0 + x0 + x1 + ...], added from the left. *)
Definition pysum (l : list Q) : Q := fold_left Qplus l 0.

Definition calc_area_under_PSD (self : DataObject) (lowerFreq upperFreq : Q)
  : result Q :=
  Freq_startAreaPSD <- Locator.take_closest (freqs self) lowerFreq ;;
  index_startAreaPSD <- int_of_array (np_where (freqs self) Freq_startAreaPSD) ;;
  Freq_endAreaPSD <- Locator.take_closest (freqs self) upperFreq ;;
  index_endAreaPSD <- int_of_array (np_where (freqs self) Freq_endAreaPSD) ;;
  Ok (pysum (slice (PSD self) index_startAreaPSD index_endAreaPSD)).

(** [a[idx]] for an array of positions [idx]. *)
Fixpoint take (a : list Q) (idx : list nat) : result (list Q) :=
  match idx with
  | [] => Ok []
  | i :: rest =>
      v <- getitem a (Z.of_nat i) ;;
      vs <- take a rest ;;
      Ok (v :: vs)
  end.

(** The two window positions of one pass of the loop of [get_ZXY_freqs]. *)
Definition fit_window (Data : DataObject) (bandwidth freq : Q)
  : result (nat * nat) :=
  z_f_fit_lower <- Locator.take_closest (freqs Data) (freq - bandwidth / 2) ;;
  z_f_fit_upper <- Locator.take_closest (freqs Data) (freq + bandwidth / 2) ;;
  z_indx_fit_lower <- int_of_array (np_where (freqs Data) z_f_fit_lower) ;;
  z_indx_fit_upper <- int_of_array (np_where (freqs Data) z_f_fit_upper) ;;
  Ok (z_indx_fit_lower, z_indx_fit_upper).

(** One pass of the loop: the frequencies of all bins whose PSD equals the
    largest PSD of the window. *)
Definition highest_peak (Data : DataObject) (bandwidth freq : Q)
  : result (list Q) :=
  w <- fit_window Data bandwidth freq ;;
  let '(z_indx_fit_lower, z_indx_fit_upper) := w in
  m <- pymax (slice (PSD Data) z_indx_fit_lower z_indx_fit_upper) ;;
  let z_index_ftrap := np_where (PSD Data) m in
  take (freqs Data) z_index_ftrap.

(** What one pass of the loop appends for the approximate frequency [f]:
    the window has a largest PSD [m], attained inside it, and [E] lists the
    frequencies of all bins of the spectrum whose PSD equals [m]. *)
Definition peak_of (D : DataObject) (bw f : Q) (E : list Q) : Prop :=
  exists lo hi m,
    fit_window D bw f = Ok (lo, hi) /\
    (exists p, (lo <= p)%nat /\ (p < hi)%nat /\ nth p (PSD D) 0 = m) /\
    (forall p, (lo <= p)%nat -> (p < hi)%nat -> nth p (PSD D) 0 <= m) /\
    E <> [] /\
    forall v, In v E <->
              exists i, (i < length (freqs D))%nat /\
                        nth i (freqs D) 0 = v /\ nth i (PSD D) 0 == m.

Fixpoint each_peak (Data : DataObject) (bandwidth : Q) (approx : list Q)
    (trapfreqs : list (list Q)) : result (list (list Q)) :=
  match approx with
  | [] => Ok trapfreqs
  | freq :: rest =>
      z_ftrap <- highest_peak Data bandwidth freq ;;
      each_peak Data bandwidth rest (trapfreqs ++ [z_ftrap])
  end.

Definition get_ZXY_freqs (Data : DataObject) (zfreq xfreq yfreq bandwidth : Q)
  : result (list (list Q)) :=
  each_peak Data bandwidth [zfreq; xfreq; yfreq] [].

(** [DataObject.plot_phase_space]: the channels come from [get_ZXY_data]
    called with its default transitions, implementation and time window and
    [ShowFig=False]; [plotting] stands for the statements after that call. *)
Definition plot_phase_space {X : Type} (sp : ops)
    (plotting : list (sample sp) * list (sample sp) * list (sample sp)
                * list Q -> result X)
    (self : DataObject) (zf xf yf : Q) (FractionOfSampleFreq : nat)
    (zwidth xwidth ywidth : Q) (ShowFig : bool) : result X :=
  channels <- ZXY.get_ZXY_data sp self zf xf yf FractionOfSampleFreq
                               zwidth xwidth ywidth 10000 5000 5000
                               "filtfilt" None None false ;;
  plotting channels.

End Spectrum.

(** * Properties *)

Module LocatorFacts.

Import Locator.
Local Open Scope Q_scope.

Lemma Qltb_lt (x y : Q) : Qltb x y = true <-> x < y.
Proof.
  unfold Qltb. rewrite negb_true_iff.
  destruct (Qle_bool y x) eqn:E.
  - apply Qle_bool_iff in E. split; [discriminate | intro H; exfalso; lra].
  - split; [intros _ | reflexivity].
    destruct (Qlt_le_dec x y) as [H | H]; [exact H |].
    apply Qle_bool_iff in H. congruence.
Qed.

Lemma Qltb_ge (x y : Q) : Qltb x y = false <-> y <= x.
Proof.
  destruct (Qltb x y) eqn:E.
  - apply Qltb_lt in E. split; [discriminate | intro; exfalso; lra].
  - split; [intros _ | reflexivity].
    destruct (Qlt_le_dec x y) as [H | H]; [| exact H].
    apply Qltb_lt in H. congruence.
Qed.

Lemma sorted_nth (l : list Q) :
  StronglySorted Qle l ->
  forall i j, (i <= j)%nat -> (j < length l)%nat -> nth i l 0 <= nth j l 0.
Proof.
  induction 1 as [| a l Hs IH Hall]; intros i j Hij Hj; simpl in Hj.
  - lia.
  - destruct j as [| j].
    + assert (i = 0)%nat by lia. subst. simpl. lra.
    + destruct i as [| i]; simpl.
      * rewrite Forall_forall in Hall. apply Hall, nth_In. lia.
      * apply IH; lia.
Qed.

Lemma getitem_nat {A : Type} (l : list A) (i : nat) (d : A) :
  (i < length l)%nat -> getitem l (Z.of_nat i) = Ok (nth i l d).
Proof.
  intro Hi. unfold getitem.
  destruct (Z.of_nat i <? 0)%Z eqn:E; [apply Z.ltb_lt in E; lia |].
  replace (0 <=? Z.of_nat i)%Z with true by (symmetry; apply Z.leb_le; lia).
  replace (Z.of_nat i <? Z.of_nat (length l))%Z with true
    by (symmetry; apply Z.ltb_lt; lia).
  simpl. rewrite Nat2Z.id.
  rewrite (nth_error_nth' l d Hi). reflexivity.
Qed.

Lemma getitem_last {A : Type} (l : list A) (d : A) :
  l <> [] -> getitem l (-1) = Ok (nth (length l - 1) l d).
Proof.
  intro Hl.
  assert (0 < length l)%nat by (destruct l; [congruence | simpl; lia]).
  rewrite <- (getitem_nat l (length l - 1) d) by lia.
  unfold getitem. simpl (-1 <? 0)%Z. cbv iota.
  replace (Z.of_nat (length l - 1) <? 0)%Z with false
    by (symmetry; apply Z.ltb_ge; lia).
  replace (Z.of_nat (length l) + -1)%Z with (Z.of_nat (length l - 1)) by lia.
  reflexivity.
Qed.

Lemma bisect_loop_step (f : nat) (a : list Q) (x : Q) (lo hi : nat) :
  bisect_loop (S f) a x lo hi =
  if (lo <? hi)%nat then
    if Qltb (nth ((lo + hi) / 2) a 0) x
    then bisect_loop f a x ((lo + hi) / 2 + 1) hi
    else bisect_loop f a x lo ((lo + hi) / 2)
  else lo.
Proof. reflexivity. Qed.

(** [bisect_loop] keeps the partition invariant and, given fuel for the
    width of the interval, ends on the partition point. *)
Lemma bisect_loop_spec (a : list Q) (x : Q) :
  StronglySorted Qle a ->
  forall fuel lo hi,
    (lo <= hi)%nat -> (hi <= length a)%nat -> (hi - lo <= fuel)%nat ->
    (forall i, (i < lo)%nat -> nth i a 0 < x) ->
    (forall i, (hi <= i)%nat -> (i < length a)%nat -> x <= nth i a 0) ->
    let p := bisect_loop fuel a x lo hi in
    (p <= length a)%nat /\
    (forall i, (i < p)%nat -> nth i a 0 < x) /\
    (forall i, (p <= i)%nat -> (i < length a)%nat -> x <= nth i a 0).
Proof.
  intros Hs. induction fuel as [| f IH]; intros lo hi Hle Hhi Hfuel Hlow Hup.
  - simpl. assert (lo = hi) by lia. subst. auto.
  - rewrite bisect_loop_step. destruct (lo <? hi)%nat eqn:E.
    + apply Nat.ltb_lt in E.
      assert (Hmid : (lo <= (lo + hi) / 2 /\ (lo + hi) / 2 < hi)%nat).
      { split.
        - apply Nat.div_le_lower_bound; lia.
        - apply Nat.Div0.div_lt_upper_bound; lia. }
      destruct (Qltb (nth ((lo + hi) / 2) a 0) x) eqn:C.
      * apply Qltb_lt in C. apply IH; try lia; auto.
        intros i Hi.
        assert (nth i a 0 <= nth ((lo + hi) / 2) a 0)
          by (apply sorted_nth; auto; lia).
        lra.
      * apply Qltb_ge in C. apply IH; try lia; auto.
        intros i Hi Hlen.
        assert (nth ((lo + hi) / 2) a 0 <= nth i a 0)
          by (apply sorted_nth; auto; lia).
        lra.
    + apply Nat.ltb_ge in E. assert (lo = hi) by lia. subst. auto.
Qed.

Lemma bisect_left_spec (a : list Q) (x : Q) :
  StronglySorted Qle a ->
  let p := bisect_left a x in
  (p <= length a)%nat /\
  (forall i, (i < p)%nat -> nth i a 0 < x) /\
  (forall i, (p <= i)%nat -> (i < length a)%nat -> x <= nth i a 0).
Proof.
  intro Hs. unfold bisect_left.
  apply bisect_loop_spec; auto; try lia.
Qed.





Example take_closest_tie : take_closest [1; 3; 6] 2 = Ok 1.
Proof. reflexivity. Qed.

Example take_closest_below : take_closest [1; 3; 6] (-4) = Ok 1.
Proof. reflexivity. Qed.

Example take_closest_above : take_closest [1; 3; 6] 9 = Ok 6.
Proof. reflexivity. Qed.

Example take_closest_empty : take_closest [] 2 = Raise IndexError.
Proof. reflexivity. Qed.

End LocatorFacts.

Module CollisionFacts.

Import Collisions.

Lemma fold_scan_edges (l : list bool) :
  forall base count idx lastval,
    let '(count', idx', _) :=
      fold_left scan_step (combine (seq base (length l)) l)
                (count, idx, lastval) in
    count' = count + length (edges base lastval l) /\
    idx' = idx ++ edges base lastval l.
Proof.
  induction l as [| val t IH]; intros base count idx lastval.
  - simpl. rewrite app_nil_r. split; [lia | reflexivity].
  - cbn [length seq combine fold_left edges scan_step].
    destruct (val && negb lastval)%bool.
    + specialize (IH (S base) (count + 1) (idx ++ [base]) val).
      destruct (fold_left _ _ _) as [[c' i'] l'].
      destruct IH as [-> ->]. rewrite <- app_assoc. simpl. split; [lia | reflexivity].
    + specialize (IH (S base) count idx val).
      destruct (fold_left _ _ _) as [[c' i'] l'].
      exact IH.
Qed.

Lemma nth_app_here {A : Type} (pre t : list A) (v d : A) :
  nth (length pre) (pre ++ v :: t) d = v.
Proof.
  rewrite app_nth2 by lia. rewrite Nat.sub_diag. reflexivity.
Qed.

Lemma edges_filter (l : list bool) :
  forall pre,
    edges (length pre) (last pre true) l =
    filter (fun i => negb (i =? 0))
           (filter (is_run_start (pre ++ l)) (seq (length pre) (length l))).
Proof.
  induction l as [| val t IH]; intros pre.
  - reflexivity.
  - cbn [edges length seq filter].
    specialize (IH (pre ++ [val])).
    rewrite <- app_assoc in IH. cbn [app] in IH.
    rewrite length_app in IH. cbn [length] in IH.
    rewrite Nat.add_1_r in IH. rewrite last_last in IH.
    rewrite IH. clear IH.
    unfold is_run_start at 2. rewrite nth_app_here.
    destruct pre as [| a pre'] using rev_ind.
    + cbn. destruct val; reflexivity.
    + clear IHpre'. rewrite last_last.
      rewrite length_app. cbn [length]. rewrite Nat.add_1_r.
      replace (S (length pre') =? 0) with false by reflexivity.
      replace (S (length pre') - 1) with (length pre') by lia.
      rewrite <- app_assoc. cbn [app]. rewrite nth_app_here.
      cbn [orb]. destruct (val && negb a)%bool; reflexivity.
Qed.

(** C9 (as the code has it). [count_collisions] returns the first sample
    offsets of the out-of-tolerance runs that follow an in-tolerance
    sample, and their number; the samples of one run belong to one event,
    and a run that begins at offset 0 is not reported. *)
Theorem count_collisions_runs (c : list bool) :
  count_collisions c =
  (length (preceded_run_starts c), preceded_run_starts c).
Proof.
  unfold count_collisions, enumerate.
  pose proof (fold_scan_edges c 0 0 [] true) as H.
  destruct (fold_left _ _ _) as [[count idx] lastval].
  destruct H as [-> ->]. cbn [app Nat.add].
  pose proof (edges_filter c []) as E. cbn [length last app] in E.
  unfold preceded_run_starts, run_starts. rewrite <- E. reflexivity.
Qed.

(** A sequence that opens with an in-tolerance sample has every run
    reported. *)
Lemma preceded_all (c : list bool) :
  hd false c = false -> preceded_run_starts c = run_starts c.
Proof.
  intro Hc. unfold preceded_run_starts, run_starts.
  destruct c as [| v t]; [reflexivity |].
  simpl in Hc. subst v.
  cbn [length seq filter]. unfold is_run_start at 1 3. cbn [nth andb].
  apply forallb_filter_id.
  apply forallb_forall. intros i Hi.
  apply filter_In in Hi. destruct Hi as [Hi _].
  apply in_seq in Hi. destruct i; [lia | reflexivity].
Qed.

(** C9, the sequence on which the claim as stated fails: two
    out-of-tolerance runs, at offsets 0 and 2, and one event reported. *)
Lemma count_collisions_leading_run :
  run_starts [true; false; true] = [0; 2] /\
  count_collisions [true; false; true] = (1, [2]) /\
  count_collisions [true; false; true] <>
  (length (run_starts [true; false; true]), run_starts [true; false; true]).
Proof.
  repeat split. discriminate.
Qed.

Example count_collisions_two_runs :
  count_collisions [false; true; true; false; false; true; false] = (2, [1; 5]).
Proof. reflexivity. Qed.

End CollisionFacts.

Module FilterFacts.

Import SciPy Filter LocatorFacts.
Local Open Scope Q_scope.






End FilterFacts.

Module PhysicsFacts.

Import Physics.
Local Open Scope R_scope.

Lemma sqrt2_pos : 0 < sqrt 2.
Proof. apply sqrt_lt_R0. lra. Qed.








Ltac nonzero :=
  repeat split;
  first [ assumption
        | unfold T0, kB, rho; lra
        | pose proof sqrt2_pos; lra ].

Ltac positive :=
  repeat match goal with
         | |- 0 < PI => exact PI_RGT_0
         | |- 0 < sqrt 2 => exact sqrt2_pos
         | |- 0 < _ => assumption
         | |- 0 < _ => lra
         | |- 0 < _ * _ => apply Rmult_lt_0_compat
         | |- 0 < _ / _ => apply Rdiv_lt_0_compat
         | |- 0 < _ ^ _ => apply pow_lt
         end.



Lemma conversionFactor_positive (P PErr A0 AErr G GErr : R) :
  0 < P -> 0 < A0 -> 0 < G ->
  0 < conversionFactor_of (extract_parameters P PErr A0 AErr G GErr).
Proof.
  intros HP HA HG. unfold extract_parameters, conversionFactor_of. cbv zeta.
  cbn [fst snd]. apply sqrt_lt_R0.
  unfold rho, dm, T0, kB, eta. positive.
Qed.




End PhysicsFacts.

Module ZXYFacts.

Import SciPy Data ZXY.
Local Open Scope Q_scope.

(** The module binds [IIR_filter_design]; it binds no [IIRFilterDesign]
    and no [_ply]. *)
Lemma load_IIR_filter_design (sp : ops) :
  load_global sp "IIR_filter_design"
  = Ok (Designer (Filter.IIR_filter_design sp)).
Proof. reflexivity. Qed.

Lemma load_IIRFilterDesign (sp : ops) :
  load_global sp "IIRFilterDesign" = Raise (NameError "IIRFilterDesign").
Proof. reflexivity. Qed.

Lemma load_ply (sp : ops) :
  load_global sp "_ply" = Raise (NameError "_ply").
Proof. reflexivity. Qed.

Lemma filtered_channel_raises (sp : ops) ApplyFilter f width transition S x :
  filtered_channel sp ApplyFilter f width transition S x
  = Raise (NameError "IIRFilterDesign").
Proof. reflexivity. Qed.

(** C7, what the code does. No call of [get_ZXY_data] returns channels:
    every call ends in an exception, and a call whose time window,
    sub-sampling divisor and filter implementation are valid ends in
    [NameError] for the unbound name [IIRFilterDesign]. *)
Theorem get_ZXY_data_never_returns (sp : ops) (Data : DataObject)
    (zf xf yf : Q) (FractionOfSampleFreq : nat)
    (zwidth xwidth ywidth ztransition xtransition ytransition : Q)
    (filterImplementation : string) (timeStart timeEnd : option Q)
    (ShowFig : bool) :
  let call := get_ZXY_data sp Data zf xf yf FractionOfSampleFreq
                zwidth xwidth ywidth ztransition xtransition ytransition
                filterImplementation timeStart timeEnd ShowFig in
  returns call = false /\
  (returns (time_window Data timeStart timeEnd) = true ->
   FractionOfSampleFreq <> 0%nat ->
   filterImplementation = "filtfilt"%string
   \/ filterImplementation = "lfilter"%string ->
   call = Raise (NameError "IIRFilterDesign")).
Proof.
  cbv zeta. unfold get_ZXY_data.
  destruct (time_window Data timeStart timeEnd) as [[StartIndex EndIndex] | e];
    cbn [bind returns]; [| split; [reflexivity | discriminate]].
  split.
  - destruct (pydiv _ _); cbn [bind returns]; [| reflexivity].
    destruct (String.eqb filterImplementation "filtfilt");
      [| destruct (String.eqb filterImplementation "lfilter")];
      cbn [bind returns]; try reflexivity;
      destruct (window _ _ _ _); reflexivity.
  - intros _ HF Himpl.
    assert (Hdiv : exists q,
               pydiv (SampleFreq Data)
                     (inject_Z (Z.of_nat FractionOfSampleFreq)) = Ok q).
    { unfold pydiv.
      destruct (Qeq_bool (inject_Z (Z.of_nat FractionOfSampleFreq)) 0) eqn:E;
        [| eexists; reflexivity].
      apply Qeq_bool_iff in E. unfold Qeq, inject_Z in E. simpl in E. lia. }
    destruct Hdiv as [q ->]. cbn [bind].
    assert (Hwin : exists w, window (voltage Data) StartIndex EndIndex
                                    FractionOfSampleFreq = Ok w).
    { unfold window. destruct (FractionOfSampleFreq =? 0)%nat eqn:E;
        [apply Nat.eqb_eq in E; contradiction | eexists; reflexivity]. }
    destruct Hwin as [w Hw].
    destruct Himpl as [-> | ->]; cbn [String.eqb bind]; rewrite Hw; reflexivity.
Qed.

Example get_ZXY_data_on_recording :
  get_ZXY_data passthrough recording 1 2 3 1 10000 5000 5000 10000 5000 5000
               "filtfilt" None None true
  = Raise (NameError "IIRFilterDesign").
Proof. reflexivity. Qed.

(** C8, what the code does. [get_ZXY_data_IFFT] cuts all three axes with
    the band of half-width [zwidth/2]: it equals the documented
    extraction run with [zwidth] as the width of every axis, so its
    result does not vary with [xwidth] or [ywidth]. *)
Theorem get_ZXY_data_IFFT_uses_zwidth (sp : ops) (Data : DataObject)
    (zf xf yf zwidth xwidth ywidth : Q) (timeStart timeEnd : option Q)
    (ShowFig : bool) :
  get_ZXY_data_IFFT sp Data zf xf yf zwidth xwidth ywidth
                    timeStart timeEnd ShowFig
  = get_ZXY_data_IFFT_documented sp Data zf xf yf zwidth zwidth zwidth
                                 timeStart timeEnd ShowFig /\
  forall xwidth' ywidth',
    get_ZXY_data_IFFT sp Data zf xf yf zwidth xwidth ywidth
                      timeStart timeEnd ShowFig
    = get_ZXY_data_IFFT sp Data zf xf yf zwidth xwidth' ywidth'
                        timeStart timeEnd ShowFig.
Proof. split; reflexivity. Qed.

(** On the sample recording, with widths 4, 2, 2 around the centres
    1, 2, 3, the x and y channels keep bins that their own bands exclude. *)
Lemma get_ZXY_data_IFFT_on_recording :
  get_ZXY_data_IFFT passthrough recording 1 2 3 4 2 2 None None false
  = Ok ([Some 2; Some 4; Some 6; Some 8; Some 0; Some 0; Some 14],
        [Some 2; Some 4; Some 6; Some 8; Some 0; Some 0; Some 0],
        [Some 0; Some 4; Some 6; Some 8; Some 0; Some 0; Some 0],
        [0; 1; 2; 3; 4; 5; 6]) /\
  get_ZXY_data_IFFT_documented passthrough recording 1 2 3 4 2 2
                               None None false
  = Ok ([Some 2; Some 4; Some 6; Some 8; Some 0; Some 0; Some 14],
        [Some 0; Some 4; Some 6; Some 8; Some 0; Some 0; Some 0],
        [Some 0; Some 0; Some 6; Some 8; Some 0; Some 0; Some 0],
        [0; 1; 2; 3; 4; 5; 6]).
Proof. split; vm_compute; reflexivity. Qed.

End ZXYFacts.

Module FitFacts.

Import SciPy Data Fit LocatorFacts.
Local Open Scope Q_scope.

(** *** [take_closest] and [index] on arbitrary sequences *)

Lemma bisect_loop_bounds (a : list Q) (x : Q) :
  forall fuel lo hi, (lo <= hi)%nat ->
    (lo <= Locator.bisect_loop fuel a x lo hi <= hi)%nat.
Proof.
  induction fuel as [| f IH]; intros lo hi Hle.
  - simpl. lia.
  - rewrite bisect_loop_step. destruct (lo <? hi)%nat eqn:E; [| lia].
    apply Nat.ltb_lt in E.
    assert (Hmid : (lo <= (lo + hi) / 2 /\ (lo + hi) / 2 < hi)%nat).
    { split.
      - apply Nat.div_le_lower_bound; lia.
      - apply Nat.Div0.div_lt_upper_bound; lia. }
    destruct (Qltb _ x).
    + specialize (IH ((lo + hi) / 2 + 1)%nat hi). lia.
    + specialize (IH lo ((lo + hi) / 2)%nat). lia.
Qed.

Lemma take_closest_empty_raises (x : Q) :
  Locator.take_closest [] x = Raise IndexError.
Proof. reflexivity. Qed.

Lemma take_closest_member (l : list Q) (x : Q) :
  l <> [] -> exists v, Locator.take_closest l x = Ok v /\ In v l.
Proof.
  intro Hne.
  assert (Hlen : (0 < length l)%nat) by (destruct l; [congruence | simpl; lia]).
  unfold Locator.take_closest.
  pose proof (bisect_loop_bounds l x (length l) 0 (length l) ltac:(lia)) as Hb.
  fold (Locator.bisect_left l x) in Hb.
  set (p := Locator.bisect_left l x) in *.
  destruct (p =? 0)%nat eqn:E0.
  - exists (nth 0 l 0).
    change (getitem l 0) with (getitem l (Z.of_nat 0)).
    rewrite (getitem_nat l 0 0 Hlen). split; [reflexivity | apply nth_In; lia].
  - apply Nat.eqb_neq in E0.
    destruct (p =? length l)%nat eqn:E1.
    + exists (nth (length l - 1) l 0). rewrite (getitem_last l 0 Hne).
      split; [reflexivity | apply nth_In; lia].
    + apply Nat.eqb_neq in E1.
      replace (Z.of_nat p - 1)%Z with (Z.of_nat (p - 1)) by lia.
      rewrite (getitem_nat l (p - 1) 0) by lia.
      rewrite (getitem_nat l p 0) by lia.
      cbn [bind].
      destruct (Qltb _ _); eexists; (split; [reflexivity | apply nth_In; lia]).
Qed.

Lemma index_from_member (l : list Q) (v : Q) :
  In v l -> forall k, exists i, index_from k l v = Ok i.
Proof.
  induction l as [| a t IH]; intros Hin k; [contradiction |].
  simpl. destruct (Qeq_bool a v) eqn:E; [eexists; reflexivity |].
  destruct Hin as [-> | Hin].
  - rewrite Qeq_bool_refl in E. discriminate.
  - apply IH; exact Hin.
Qed.







(** *** The fit reads the spectrum only *)

Ltac run_monad :=
  unfold mbind, self, lift, ret, warn, set_A, set_Ftrap, set_Gamma, set_self,
    attribute, try_except, return_nan;
  cbn [fst snd freqs PSD A Ftrap Gamma time voltage SampleFreq].











(** *** The order on floats *)






(** *** The choice of the loop *)








Example get_fit_auto_on_spectrum :
  fst (get_fit_auto passthrough 4 6 1 1 true (spectrum, []))
  = Ok ({| n := Fin 5; std_dev := Fin (8 # 8) |},
        {| n := Fin 90000000000000001; std_dev := Fin (8 # 8) |},
        {| n := Fin (5 # 4); std_dev := Fin (8 # 8) |}).
Proof. vm_compute. reflexivity. Qed.

Example get_fit_auto_all_fail :
  fst (get_fit_auto passthrough 4 1 (1 # 2) (1 # 2) true (spectrum, []))
  = Raise (UnboundLocalError "BestWidth").
Proof. vm_compute. reflexivity. Qed.

End FitFacts.

Module SmoothingFacts.

Import Smoothing.
Local Open Scope Q_scope.















Example moving_average_pairs :
  moving_average [1; 2; 6; 4] 2 = Ok [3 # 2; 8 # 2; 10 # 2].
Proof. vm_compute. reflexivity. Qed.

End SmoothingFacts.

Module LookupFacts.

Import Locator LocatorFacts Fit FitFacts.
Local Open Scope Q_scope.

(** X3. [take_closest] does not need a sorted argument to return: on any
    non-empty sequence it returns one of its elements, and on the empty
    sequence it raises [IndexError]. *)
Theorem take_closest_any_sequence (myList : list Q) (myNumber : Q) :
  (myList = [] -> take_closest myList myNumber = Raise IndexError) /\
  (myList <> [] ->
   exists v, take_closest myList myNumber = Ok v /\ In v myList).
Proof.
  split.
  - intros ->. reflexivity.
  - intro Hne.
    destruct (take_closest_member myList myNumber Hne) as (v & Hv & Hin).
    exists v. split; assumption.
Qed.

Lemma take_closest_any_sequence_witness :
  exists v, take_closest [5; 1; 4] 3 = Ok v /\ In v [5; 1; 4].
Proof.
  apply (proj2 (take_closest_any_sequence [5; 1; 4] 3)). discriminate.
Defined.

Lemma index_from_found (l : list Q) (v : Q) :
  forall k i, index_from k l v = Ok i ->
    (k <= i)%nat /\ (i - k < length l)%nat /\
    nth (i - k) l 0 == v /\
    forall j, (j < i - k)%nat -> ~ nth j l 0 == v.
Proof.
  induction l as [| a t IH]; intros k i H; simpl in H; [discriminate |].
  destruct (Qeq_bool a v) eqn:E.
  - injection H as <-. rewrite Nat.sub_diag.
    apply Qeq_bool_iff in E. simpl.
    split; [lia |]. split; [lia |]. split; [exact E |].
    intros j Hj. lia.
  - apply IH in H. destruct H as (Hk & Hlen & Hv & Hfirst).
    replace (i - k)%nat with (S (i - S k)) by lia.
    simpl. split; [lia |]. split; [lia |]. split; [exact Hv |].
    intros j Hj. destruct j as [| j].
    + simpl. apply Qeq_bool_neq. exact E.
    + simpl. apply Hfirst. lia.
Qed.

(** X4. The lookup [list(seq).index(take_closest(seq, x))] that the peak
    locator and the extractors use never fails on a non-empty sequence:
    it returns a position inside the sequence, the first one that holds
    the value [take_closest] returned. *)
Theorem closest_index_in_range (l : list Q) (x : Q) :
  l <> [] ->
  exists v i,
    take_closest l x = Ok v /\
    closest_index l x = Ok i /\
    (i < length l)%nat /\
    nth i l 0 == v /\
    forall j, (j < i)%nat -> ~ nth j l 0 == v.
Proof.
  intro Hne.
  destruct (take_closest_member l x Hne) as (v & Hv & Hin).
  destruct (index_from_member l v Hin 0%nat) as [i Hi].
  exists v, i. unfold closest_index. rewrite Hv. cbn [bind]. unfold index.
  split; [reflexivity |]. split; [exact Hi |].
  apply index_from_found in Hi. rewrite Nat.sub_0_r in Hi.
  destruct Hi as (_ & Hlen & Heq & Hfirst). auto.
Qed.

Lemma closest_index_in_range_witness :
  exists v i,
    take_closest [1; 3; 6] 4 = Ok v /\
    closest_index [1; 3; 6] 4 = Ok i /\
    (i < length [1; 3; 6])%nat /\
    nth i [1; 3; 6] 0 == v /\
    forall j, (j < i)%nat -> ~ nth j [1; 3; 6] 0 == v.
Proof.
  apply (closest_index_in_range [1; 3; 6] 4). discriminate.
Defined.

Lemma strictly_sorted_nth (l : list Q) :
  StronglySorted Qlt l ->
  forall i j, (i < j)%nat -> (j < length l)%nat -> nth i l 0 < nth j l 0.
Proof.
  induction 1 as [| a l Hs IH Hall]; intros i j Hij Hj; simpl in Hj.
  - lia.
  - destruct j as [| j]; [lia |].
    destruct i as [| i]; simpl.
    + rewrite Forall_forall in Hall. apply Hall, nth_In. lia.
    + apply IH; lia.
Qed.

Lemma strictly_sorted_weak (l : list Q) :
  StronglySorted Qlt l -> StronglySorted Qle l.
Proof.
  induction 1 as [| a l Hs IH Hall]; constructor; [exact IH |].
  rewrite Forall_forall in *. intros y Hy. apply Qlt_le_weak. auto.
Qed.

(** On an ascending sequence a target that equals an element is returned
    as it is. *)
Lemma take_closest_hit (l : list Q) (i : nat) :
  StronglySorted Qle l -> (i < length l)%nat ->
  exists v, take_closest l (nth i l 0) = Ok v /\ v == nth i l 0.
Proof.
  intros Hs Hi.
  destruct (bisect_left_spec l (nth i l 0) Hs) as (Hp & Hlow & Hup).
  assert (Hmono := sorted_nth l Hs).
  unfold take_closest.
  set (x := nth i l 0) in *.
  set (p := bisect_left l x) in *.
  assert (Hpi : (p <= i)%nat).
  { destruct (Nat.le_gt_cases p i) as [H | H]; [exact H |].
    specialize (Hlow i H). unfold x in Hlow. lra. }
  assert (Hpx : nth p l 0 == x).
  { assert (x <= nth p l 0) by (apply Hup; lia).
    assert (nth p l 0 <= x) by (apply Hmono; lia). lra. }
  destruct (p =? 0)%nat eqn:E0.
  - apply Nat.eqb_eq in E0. rewrite E0 in Hpx.
    exists (nth 0 l 0).
    change (getitem l 0) with (getitem l (Z.of_nat 0)).
    rewrite (getitem_nat l 0 0) by lia. split; [reflexivity | exact Hpx].
  - apply Nat.eqb_neq in E0.
    replace (p =? length l)%nat with false
      by (symmetry; apply Nat.eqb_neq; lia).
    replace (Z.of_nat p - 1)%Z with (Z.of_nat (p - 1)) by lia.
    rewrite (getitem_nat l (p - 1) 0) by lia.
    rewrite (getitem_nat l p 0) by lia. cbn [bind].
    assert (Hb : nth (p - 1) l 0 < x) by (apply Hlow; lia).
    replace (Qltb (nth p l 0 - x) (x - nth (p - 1) l 0)) with true
      by (symmetry; apply Qltb_lt; lra).
    exists (nth p l 0). split; [reflexivity | exact Hpx].
Qed.

Lemma closest_index_at (l : list Q) (i : nat) :
  StronglySorted Qlt l -> (i < length l)%nat ->
  closest_index l (nth i l 0) = Ok i.
Proof.
  intros Hs Hi.
  destruct (take_closest_hit l i (strictly_sorted_weak l Hs) Hi) as (v & Hv & Hvx).
  unfold closest_index. rewrite Hv. cbn [bind].
  assert (Hin : In v l).
  { destruct (take_closest_member l (nth i l 0)) as (v' & Hv' & Hin');
      [destruct l; [simpl in Hi; lia | discriminate] |].
    congruence. }
  destruct (index_from_member l v Hin 0%nat) as [j Hj].
  unfold index. rewrite Hj. f_equal.
  apply index_from_found in Hj. rewrite Nat.sub_0_r in Hj.
  destruct Hj as (_ & Hlen & Heq & Hfirst).
  pose proof (strictly_sorted_nth l Hs) as Hstrict.
  destruct (Nat.lt_trichotomy j i) as [H | [H | H]]; [| exact H |].
  - specialize (Hstrict j i H Hi). lra.
  - specialize (Hstrict i j H Hlen). lra.
Qed.

(** X5. On a strictly ascending sequence the lookup inverts indexing:
    the position found for the value stored at position [i] is [i], and
    the value found there is the one looked up. *)
Theorem closest_index_of_element (l : list Q) (i : nat) :
  StronglySorted Qlt l -> (i < length l)%nat ->
  closest_index l (nth i l 0) = Ok i /\
  exists v, take_closest l (nth i l 0) = Ok v /\ v == nth i l 0.
Proof.
  intros Hs Hi. split.
  - apply closest_index_at; assumption.
  - apply take_closest_hit; [apply strictly_sorted_weak |]; assumption.
Qed.

Lemma closest_index_of_element_witness :
  closest_index [1; 3; 6] (nth 2 [1; 3; 6] 0) = Ok 2%nat.
Proof.
  apply (proj1 (closest_index_of_element [1; 3; 6] 2
     ltac:(repeat constructor; unfold Qlt; simpl; lia)
     ltac:(simpl; lia))).
Defined.

End LookupFacts.

Module EventFacts.

Import Collisions CollisionFacts.

Lemma count_collisions_edges (c : list bool) :
  count_collisions c = (length (edges 0 true c), edges 0 true c).
Proof.
  unfold count_collisions, enumerate.
  pose proof (fold_scan_edges c 0 0 [] true) as H.
  destruct (fold_left _ _ _) as [[count idx] lastval].
  destruct H as [-> ->]. reflexivity.
Qed.

Lemma edges_member (c : list bool) (i : nat) :
  In i (edges 0 true c) <->
  (1 <= i)%nat /\ (i < length c)%nat /\
  nth i c false = true /\ nth (i - 1) c false = false.
Proof.
  pose proof (edges_filter c []) as E. cbn [length last app] in E.
  rewrite E. rewrite !filter_In, in_seq. unfold is_run_start.
  split.
  - intros [[Hr Hs] Hnz].
    apply negb_true_iff, Nat.eqb_neq in Hnz.
    apply andb_true_iff in Hs. destruct Hs as [Hi Hprev].
    replace (i =? 0) with false in Hprev
      by (symmetry; apply Nat.eqb_neq; exact Hnz).
    cbn [orb] in Hprev. apply negb_true_iff in Hprev.
    repeat split; try assumption; lia.
  - intros (H1 & Hlen & Hi & Hprev).
    repeat split; try lia.
    + rewrite Hi, Hprev. cbn. apply orb_true_r.
    + apply negb_true_iff, Nat.eqb_neq. lia.
Qed.

Lemma filter_seq_increasing (f : nat -> bool) (n : nat) :
  forall a, StronglySorted lt (filter f (seq a n)).
Proof.
  induction n as [| n IH]; intro a; cbn [seq filter]; [constructor |].
  destruct (f a); [| apply IH].
  constructor; [apply IH |].
  rewrite Forall_forall. intros y Hy.
  apply filter_In in Hy. destruct Hy as [Hy _]. apply in_seq in Hy. lia.
Qed.

Lemma filter_increasing (f : nat -> bool) (l : list nat) :
  StronglySorted lt l -> StronglySorted lt (filter f l).
Proof.
  induction 1 as [| a l Hs IH Hall]; cbn [filter]; [constructor |].
  destruct (f a); [| exact IH].
  constructor; [exact IH |].
  rewrite Forall_forall in *. intros y Hy.
  apply filter_In in Hy. destruct Hy as [Hy _]. auto.
Qed.

(** X6. The events that [count_collisions] reports are exactly the
    positions [i >= 1] where the flag is set and the flag before it is
    clear; they are listed in strictly increasing order, and the count is
    their number. Position 0 is never reported. *)
Theorem count_collisions_events (Collisions : list bool) :
  let '(CollisionCount, CollisionIndicies) := count_collisions Collisions in
  CollisionCount = length CollisionIndicies /\
  StronglySorted lt CollisionIndicies /\
  forall i, In i CollisionIndicies <->
            (1 <= i)%nat /\ (i < length Collisions)%nat /\
            nth i Collisions false = true /\
            nth (i - 1) Collisions false = false.
Proof.
  rewrite count_collisions_edges.
  split; [reflexivity |]. split; [| apply edges_member].
  pose proof (edges_filter Collisions []) as E. cbn [length last app] in E.
  rewrite E. apply filter_increasing, filter_seq_increasing.
Qed.

Lemma edges_bound (l : list bool) :
  forall base lastval,
    (2 * length (edges base lastval l)
     <= length l + (if lastval then 0 else 1))%nat.
Proof.
  induction l as [| val t IH]; intros base lastval; cbn [edges length].
  - destruct lastval; simpl; lia.
  - specialize (IH (S base) val). rewrite length_app.
    destruct val, lastval; cbn [andb negb length] in *; lia.
Qed.

(** X7. Each reported event needs a clear flag before it, so a sequence
    of [n] flags holds at most [n / 2] events. *)
Theorem count_collisions_at_most_half (Collisions : list bool) :
  (2 * fst (count_collisions Collisions) <= length Collisions)%nat.
Proof.
  rewrite count_collisions_edges. cbn [fst].
  pose proof (edges_bound Collisions 0 true) as H. cbn in H. lia.
Qed.

Lemma edges_constant (l : list bool) (b : bool) :
  (forall v, In v l -> v = b) ->
  forall base lastval, (b = true -> lastval = true) ->
    edges base lastval l = [].
Proof.
  induction l as [| val t IH]; intros Hall base lastval Hlast; [reflexivity |].
  cbn [edges].
  assert (val = b) by (apply Hall; left; reflexivity). subst val.
  rewrite IH; [| intros v Hv; apply Hall; right; exact Hv | intros Hb; exact Hb].
  destruct b; [rewrite (Hlast eq_refl) |]; reflexivity.
Qed.

End EventFacts.

Module DiscriminatorFacts.

Import Data Discriminator LocatorFacts.
Local Open Scope Q_scope.

Lemma mul_arrays_length (x y : list (Q * Q)) :
  length x = length y -> length (mul_arrays x y) = length x.
Proof.
  revert y. induction x as [| a x IH]; intros [| b y] H; simpl in *;
    try reflexivity; try discriminate.
  rewrite IH by lia. reflexivity.
Qed.

Lemma arctan2_arrays_length (sp : ops) (x y : list Q) :
  length x = length y -> length (arctan2_arrays sp x y) = length x.
Proof.
  revert y. induction x as [| a x IH]; intros [| b y] H; simpl in *;
    try reflexivity; try discriminate.
  rewrite IH by lia. reflexivity.
Qed.

Lemma fm_discriminator_length (sp : ops) (Signal : list Q) (S : list (Q * Q)) :
  hilbert sp Signal = Ok S ->
  exists fmd, fm_discriminator sp Signal = Ok fmd /\
              length fmd = (length S - 1)%nat.
Proof.
  intro H. unfold fm_discriminator. rewrite H. cbn [bind].
  unfold _GetRealImagArray, _GetComplexConjugateArray.
  eexists. split; [reflexivity |].
  rewrite arctan2_arrays_length by (rewrite !length_map; reflexivity).
  rewrite length_map, mul_arrays_length.
  - rewrite length_skipn. reflexivity.
  - rewrite length_skipn, length_firstn, length_map. lia.
Qed.

(** X8. The discriminator and the flag sequence are one sample shorter
    than the analytic signal: [find_collisions] returns
    [len(hilbert(Signal)) - 1] flags, and passes on what [hilbert]
    raises. *)
Theorem find_collisions_length (sp : ops) (Signal : list Q) (tolerance : Q) :
  (forall S, hilbert sp Signal = Ok S ->
     exists fmd flags,
       fm_discriminator sp Signal = Ok fmd /\
       find_collisions sp Signal tolerance = Ok flags /\
       length fmd = (length S - 1)%nat /\
       length flags = (length S - 1)%nat) /\
  (forall e, hilbert sp Signal = Raise e ->
     find_collisions sp Signal tolerance = Raise e).
Proof.
  split.
  - intros S H.
    destruct (fm_discriminator_length sp Signal S H) as (fmd & Hf & Hl).
    exists fmd. eexists. unfold find_collisions. rewrite Hf. cbn [bind].
    split; [reflexivity |]. split; [reflexivity |]. split; [exact Hl |].
    rewrite length_map. exact Hl.
  - intros e H. unfold find_collisions, fm_discriminator.
    rewrite H. reflexivity.
Qed.

Lemma find_collisions_length_witness :
  exists fmd flags,
    fm_discriminator sample_ops [1; 2; 3; 4] = Ok fmd /\
    find_collisions sample_ops [1; 2; 3; 4] 50 = Ok flags /\
    length fmd = (length [(1%Q, 0%Q); (2%Q, 0%Q); (3%Q, 0%Q); (4%Q, 0%Q)] - 1)%nat /\
    length flags = (length [(1%Q, 0%Q); (2%Q, 0%Q); (3%Q, 0%Q); (4%Q, 0%Q)] - 1)%nat.
Proof.
  apply (proj1 (find_collisions_length sample_ops [1; 2; 3; 4] 50)).
  reflexivity.
Defined.

Lemma Qeq_bool_false_neq (x y : Q) : ~ x == y -> Qeq_bool x y = false.
Proof.
  intro H. destruct (Qeq_bool x y) eqn:E; [| reflexivity].
  apply Qeq_bool_iff in E. contradiction.
Qed.


Lemma collision_negative_mean (value mean tol : Q) :
  mean < 0 -> 0 < tol ->
  _is_this_a_collision (value, Fin mean, tol) = false.
Proof.
  intros Hm Ht. unfold _is_this_a_collision, _approx_equal, np_divide.
  rewrite (Qeq_bool_false_neq mean 0) by lra.
  cbn [fmul Fit.flt].
  set (d := Qabs (mean - value)).
  assert (Hd : 0 <= d) by apply Qabs_nonneg.
  assert (E : d / mean * 100 * (- mean) == - (d * 100)) by (field; lra).
  replace (Qltb (d / mean * 100) tol) with true; [reflexivity |].
  symmetry. apply Qltb_lt.
  destruct (Qlt_le_dec (d / mean * 100) tol) as [H | H]; [exact H |].
  exfalso.
  assert (0 < d / mean * 100) by lra.
  assert (0 < d / mean * 100 * (- mean))
    by (apply Qmult_lt_0_compat; lra).
  lra.
Qed.

Lemma collision_zero_mean (value mean tol : Q) :
  mean == 0 -> _is_this_a_collision (value, Fin mean, tol) = true.
Proof.
  intro Hm. unfold _is_this_a_collision, _approx_equal, np_divide.
  rewrite (Qeq_eq_bool mean 0 Hm).
  set (d := Qabs (mean - value)).
  assert (Hd : 0 <= d) by apply Qabs_nonneg.
  destruct (Qeq_bool d 0) eqn:E0; [reflexivity |].
  apply Qeq_bool_neq in E0.
  replace (Qltb 0 d) with true by (symmetry; apply Qltb_lt; lra).
  reflexivity.
Qed.



(** X10. Detector and counter together: when the mean of the
    discriminator is zero or negative, no collision event is counted,
    whatever positive tolerance is asked for (every flag is clear for a
    negative mean, and every flag is set for a zero mean, which leaves no
    clear-to-set transition). *)
Theorem no_event_without_positive_mean (sp : ops) (Signal : list Q)
    (tolerance : Q) (fmd : list Q) (flags : list bool) (mean : Q) :
  fm_discriminator sp Signal = Ok fmd ->
  np_mean fmd = Fin mean ->
  mean <= 0 -> 0 < tolerance ->
  find_collisions sp Signal tolerance = Ok flags ->
  Collisions.count_collisions flags = (0%nat, []).
Proof.
  intros Hf Hmean Hle Htol Hflags.
  unfold find_collisions in Hflags. rewrite Hf in Hflags. cbn [bind] in Hflags.
  rewrite Hmean in Hflags. injection Hflags as <-.
  rewrite EventFacts.count_collisions_edges.
  destruct (Qlt_le_dec mean 0) as [Hneg | Hzero].
  - rewrite (EventFacts.edges_constant _ false); [reflexivity | | discriminate].
    intros v Hv. apply in_map_iff in Hv. destruct Hv as (x & <- & _).
    apply collision_negative_mean; assumption.
  - rewrite (EventFacts.edges_constant _ true); [reflexivity | | reflexivity].
    intros v Hv. apply in_map_iff in Hv. destruct Hv as (x & <- & _).
    apply collision_zero_mean. lra.
Qed.

Lemma no_event_without_positive_mean_witness :
  Collisions.count_collisions [false; false; false] = (0%nat, []).
Proof.
  apply (no_event_without_positive_mean sample_ops [1; 2; 3; 4] 50
           [- (2); - (6); - (12)] [false; false; false] (- (20) / 3)).
  - reflexivity.
  - reflexivity.
  - discriminate.
  - reflexivity.
  - reflexivity.
Defined.

End DiscriminatorFacts.

Module UncertaintyFacts.

Import Physics PhysicsFacts.
Local Open Scope R_scope.

Lemma radius_positive (P PErr A0 AErr G GErr : R) :
  0 < P -> 0 < G ->
  0 < radius_of (extract_parameters P PErr A0 AErr G GErr).
Proof.
  intros HP HG. unfold extract_parameters, radius_of. cbv zeta. cbn [fst].
  unfold rho, dm, T0, kB, eta. positive.
Qed.

Lemma mass_positive (P PErr A0 AErr G GErr : R) :
  0 < P -> 0 < G ->
  0 < mass_of (extract_parameters P PErr A0 AErr G GErr).
Proof.
  intros HP HG. unfold extract_parameters, mass_of. cbv zeta. cbn [fst snd].
  unfold rho, dm, T0, kB, eta. positive.
Qed.

Lemma err_radius_eq (P PErr A0 AErr G GErr : R) :
  P <> 0 ->
  let r := extract_parameters P PErr A0 AErr G GErr in
  err_radius_of r = radius_of r * sqrt (PErr ^ 2 + (GErr / G) ^ 2).
Proof.
  intros HP r. unfold r, extract_parameters, err_radius_of, radius_of.
  cbv zeta. cbn [fst snd].
  replace (PErr * (100 * P) / (100 * P)) with PErr by (field; lra).
  reflexivity.
Qed.

(** X11. The uncertainties that [extract_parameters] returns, for
    positive pressure, [A] and [Gamma0]: the relative uncertainty of the
    radius combines those of the pressure and of [Gamma0] in quadrature,
    the relative uncertainty of the mass is twice that of the radius, and
    that of the conversion factor combines those of [A], of the mass and
    of [Gamma0] in quadrature. *)
Theorem extract_parameters_uncertainties (P PErr A0 AErr G GErr : R) :
  0 < P -> 0 < A0 -> 0 < G ->
  let r := extract_parameters P PErr A0 AErr G GErr in
  err_radius_of r / radius_of r = sqrt (PErr ^ 2 + (GErr / G) ^ 2) /\
  err_mass_of r / mass_of r = 2 * (err_radius_of r / radius_of r) /\
  err_conversionFactor_of r / conversionFactor_of r
  = sqrt ((AErr / A0) ^ 2 + (err_mass_of r / mass_of r) ^ 2 + (GErr / G) ^ 2).
Proof.
  intros HP HA HG r.
  pose proof (radius_positive P PErr A0 AErr G GErr HP HG) as Hr.
  pose proof (mass_positive P PErr A0 AErr G GErr HP HG) as Hm.
  pose proof (conversionFactor_positive P PErr A0 AErr G GErr HP HA HG) as Hc.
  fold r in Hr, Hm, Hc.
  split; [| split].
  - unfold r. rewrite err_radius_eq by lra. fold r. field. lra.
  - assert (E : err_mass_of r = mass_of r * 2 * err_radius_of r / radius_of r)
      by reflexivity.
    rewrite E. field. split; lra.
  - assert (E : err_conversionFactor_of r
                = conversionFactor_of r
                  * sqrt ((AErr / A0) ^ 2 + (err_mass_of r / mass_of r) ^ 2
                          + (GErr / G) ^ 2))
      by reflexivity.
    rewrite E. field. lra.
Qed.

Lemma extract_parameters_uncertainties_witness :
  err_radius_of (extract_parameters 1 0.15 2 0.1 4 0.2)
  / radius_of (extract_parameters 1 0.15 2 0.1 4 0.2)
  = sqrt (0.15 ^ 2 + (0.2 / 4) ^ 2).
Proof.
  apply (proj1 (extract_parameters_uncertainties 1 0.15 2 0.1 4 0.2
                  ltac:(lra) ltac:(lra) ltac:(lra))).
Defined.

Lemma mk_ufloat_nonneg (v sd : R) :
  0 <= sd -> mk_ufloat v sd = Ok {| n := v; std_dev := sd |}.
Proof.
  intro H. unfold mk_ufloat. destruct (Rlt_dec sd 0); [lra | reflexivity].
Qed.

Lemma mk_ufloat_negative (v sd : R) :
  sd < 0 -> mk_ufloat v sd = Raise NegativeStdDev.
Proof.
  intro H. unfold mk_ufloat. destruct (Rlt_dec sd 0); [reflexivity | lra].
Qed.

(** X12. The method [DataObject.extract_parameters] on a fit with
    positive [A] and [Gamma]: for a positive pressure it returns the
    three values of the function with their uncertainties, none of them
    negative; for a negative pressure with a non-zero relative error the
    radius gets a negative uncertainty and the method raises. *)
Theorem DataObject_extract_parameters_outcome (self : fitted) (P_mbar P_Error : R) :
  0 < n (A self) -> 0 < n (Gamma self) ->
  let r := extract_parameters P_mbar P_Error
             (n (A self)) (std_dev (A self))
             (n (Gamma self)) (std_dev (Gamma self)) in
  (0 < P_mbar ->
   DataObject_extract_parameters self P_mbar P_Error
   = Ok ({| n := radius_of r; std_dev := err_radius_of r |},
         {| n := mass_of r; std_dev := err_mass_of r |},
         {| n := conversionFactor_of r;
            std_dev := err_conversionFactor_of r |}) /\
   0 <= err_radius_of r /\ 0 <= err_mass_of r /\
   0 <= err_conversionFactor_of r) /\
  (P_mbar < 0 -> P_Error <> 0 ->
   DataObject_extract_parameters self P_mbar P_Error = Raise NegativeStdDev).
Proof.
  intros HA HG r. split.
  - intro HP.
    pose proof (radius_positive P_mbar P_Error (n (A self)) (std_dev (A self))
                  (n (Gamma self)) (std_dev (Gamma self)) HP HG) as Hr.
    pose proof (mass_positive P_mbar P_Error (n (A self)) (std_dev (A self))
                  (n (Gamma self)) (std_dev (Gamma self)) HP HG) as Hm.
    pose proof (conversionFactor_positive P_mbar P_Error (n (A self))
                  (std_dev (A self)) (n (Gamma self)) (std_dev (Gamma self))
                  HP HA HG) as Hc.
    fold r in Hr, Hm, Hc.
    assert (Her : 0 <= err_radius_of r).
    { unfold r. rewrite err_radius_eq by lra. fold r.
      apply Rmult_le_pos; [lra | apply sqrt_pos]. }
    assert (Hem : 0 <= err_mass_of r).
    { assert (E : err_mass_of r
                  = mass_of r * 2 * err_radius_of r / radius_of r)
        by reflexivity.
      rewrite E. apply Rmult_le_pos.
      - apply Rmult_le_pos; [lra | exact Her].
      - apply Rlt_le, Rinv_0_lt_compat. exact Hr. }
    assert (Hec : 0 <= err_conversionFactor_of r).
    { assert (E : err_conversionFactor_of r
                  = conversionFactor_of r
                    * sqrt ((std_dev (A self) / n (A self)) ^ 2
                            + (err_mass_of r / mass_of r) ^ 2
                            + (std_dev (Gamma self) / n (Gamma self)) ^ 2))
        by reflexivity.
      rewrite E. apply Rmult_le_pos; [lra | apply sqrt_pos]. }
    split; [| auto].
    unfold DataObject_extract_parameters. fold r.
    destruct r as [[[R_ M] CF] [[RErr MErr] CFErr]] eqn:Er.
    cbn [radius_of mass_of conversionFactor_of err_radius_of err_mass_of
         err_conversionFactor_of fst snd] in *.
    rewrite !mk_ufloat_nonneg by assumption. reflexivity.
  - intros HP HE.
    assert (Hr : radius_of r < 0).
    { unfold r, extract_parameters, radius_of. cbv zeta. cbn [fst].
      assert (Hk : 0 < 0.169 * 9 * PI * eta * dm ^ 2
                       / (sqrt 2 * rho * kB * T0) / n (Gamma self))
        by (unfold rho, dm, T0, kB, eta; positive).
      replace (0.169 * 9 * PI * eta * dm ^ 2 / (sqrt 2 * rho * kB * T0)
               * (100 * P_mbar) / n (Gamma self))
        with (0.169 * 9 * PI * eta * dm ^ 2 / (sqrt 2 * rho * kB * T0)
              / n (Gamma self) * (100 * P_mbar))
        by (field; nonzero).
      nra. }
    assert (Her : err_radius_of r < 0).
    { unfold r. rewrite err_radius_eq by lra. fold r.
      assert (0 < sqrt (P_Error ^ 2
                        + (std_dev (Gamma self) / n (Gamma self)) ^ 2)).
      { apply sqrt_lt_R0.
        assert (0 < P_Error ^ 2) by nra.
        assert (0 <= (std_dev (Gamma self) / n (Gamma self)) ^ 2)
          by apply pow2_ge_0.
        lra. }
      nra. }
    unfold DataObject_extract_parameters. fold r.
    destruct r as [[[R_ M] CF] [[RErr MErr] CFErr]] eqn:Er.
    cbn [err_radius_of fst snd] in Her.
    rewrite mk_ufloat_negative by exact Her. reflexivity.
Qed.

Lemma DataObject_extract_parameters_outcome_witness :
  DataObject_extract_parameters
    {| A := {| n := 2; std_dev := 0.1 |};
       Ftrap := {| n := 5; std_dev := 0.1 |};
       Gamma := {| n := 4; std_dev := 0.2 |} |} (-1) 0.15
  = Raise NegativeStdDev.
Proof.
  apply (proj2 (DataObject_extract_parameters_outcome
                  {| A := {| n := 2; std_dev := 0.1 |};
                     Ftrap := {| n := 5; std_dev := 0.1 |};
                     Gamma := {| n := 4; std_dev := 0.2 |} |} (-1) 0.15
                  ltac:(simpl; lra) ltac:(simpl; lra)));
    lra.
Defined.

End UncertaintyFacts.

Module BandFacts.

Import SciPy Filter LocatorFacts FilterFacts.
Local Open Scope Q_scope.





End BandFacts.

Module TransformFacts.

Import SciPy Data ZXY LocatorFacts LookupFacts.
Local Open Scope Q_scope.

Ltac refold_skipn :=
  repeat match goal with
         | |- context [match ?l with [] => [] | _ :: l0 => skipn ?i l0 end] =>
             change (match l with [] => [] | _ :: l0 => skipn i l0 end)
               with (skipn (S i) l)
         end.

Lemma setitem_length {X : Type} (l l' : list X) (i : nat) (v : X) :
  setitem l i v = Ok l' -> length l' = length l.
Proof.
  unfold setitem. destruct (i <? length l)%nat eqn:E; [| discriminate].
  apply Nat.ltb_lt in E. intro H. injection H as <-. refold_skipn.
  rewrite length_app, length_firstn.
  change (length (v :: skipn (S i) l)) with (S (length (skipn (S i) l))).
  rewrite length_skipn. lia.
Qed.

Lemma setitem_nth {X : Type} (l l' : list X) (i j : nat) (v d : X) :
  setitem l i v = Ok l' ->
  nth j l' d = if (j =? i)%nat then v else nth j l d.
Proof.
  unfold setitem. destruct (i <? length l)%nat eqn:E; [| discriminate].
  apply Nat.ltb_lt in E. intro H. injection H as <-. refold_skipn.
  destruct (Nat.lt_trichotomy j i) as [Hj | [Hj | Hj]].
  - replace (j =? i)%nat with false by (symmetry; apply Nat.eqb_neq; lia).
    rewrite app_nth1 by (rewrite length_firstn; lia).
    rewrite nth_firstn.
    replace (j <? i)%nat with true by (symmetry; apply Nat.ltb_lt; lia).
    reflexivity.
  - subst j. rewrite Nat.eqb_refl.
    rewrite app_nth2 by (rewrite length_firstn; lia).
    rewrite length_firstn.
    replace (i - Nat.min i (length l))%nat with 0%nat by lia. reflexivity.
  - replace (j =? i)%nat with false by (symmetry; apply Nat.eqb_neq; lia).
    rewrite app_nth2 by (rewrite length_firstn; lia).
    rewrite length_firstn.
    replace (j - Nat.min i (length l))%nat with (S (j - i - 1)) by lia.
    cbn [nth]. rewrite nth_skipn. f_equal. lia.
Qed.

(** The loop over the bins, started at bin [k]. *)
Lemma zero_bins_run (sp : ops) (lo hi : Q) (fs : list Q) :
  forall (k : nat) (bins : list (bin sp)),
    (k + length fs <= length bins)%nat ->
    exists kept,
      zero_bins sp lo hi (combine (seq k (length fs)) fs) bins = Ok kept /\
      length kept = length bins /\
      forall i,
        nth i kept (bin_zero sp)
        = if ((k <=? i) && (i <? k + length fs))%nat%bool
          then (if out_of_band lo hi (nth (i - k) fs 0)
                then bin_zero sp else nth i bins (bin_zero sp))
          else nth i bins (bin_zero sp).
Proof.
  induction fs as [| f fs IH]; intros k bins Hk.
  - exists bins. split; [reflexivity |]. split; [reflexivity |].
    intro i. cbn [length]. rewrite Nat.add_0_r.
    destruct (k <=? i)%nat eqn:E1; destruct (i <? k)%nat eqn:E2;
      try reflexivity.
    apply Nat.leb_le in E1. apply Nat.ltb_lt in E2. lia.
  - cbn [length seq combine zero_bins]. cbn [length] in Hk.
    fold (out_of_band lo hi f).
    destruct (out_of_band lo hi f) eqn:Eout.
    + destruct (setitem bins k (bin_zero sp)) as [bins' |] eqn:Eset.
      2: { unfold setitem in Eset.
           replace (k <? length bins)%nat with true in Eset
             by (symmetry; apply Nat.ltb_lt; lia).
           discriminate. }
      cbn [bind].
      pose proof (setitem_length _ _ _ _ Eset) as Hl.
      destruct (IH (S k) bins' ltac:(lia)) as (kept & Hrun & Hlen & Hnth).
      exists kept. split; [exact Hrun |]. split; [lia |].
      intro i. rewrite Hnth.
      rewrite (setitem_nth _ _ _ i _ (bin_zero sp) Eset).
      destruct (Nat.lt_trichotomy i k) as [Hi | [Hi | Hi]].
      * replace (S k <=? i)%nat with false by (symmetry; apply Nat.leb_gt; lia).
        replace (k <=? i)%nat with false by (symmetry; apply Nat.leb_gt; lia).
        replace (i =? k)%nat with false by (symmetry; apply Nat.eqb_neq; lia).
        reflexivity.
      * subst i.
        replace (S k <=? k)%nat with false by (symmetry; apply Nat.leb_gt; lia).
        rewrite Nat.leb_refl, Nat.eqb_refl.
        replace (k <? k + S (length fs))%nat with true
          by (symmetry; apply Nat.ltb_lt; lia).
        rewrite Nat.sub_diag. cbn [andb nth]. rewrite Eout. reflexivity.
      * replace (S k <=? i)%nat with true by (symmetry; apply Nat.leb_le; lia).
        replace (k <=? i)%nat with true by (symmetry; apply Nat.leb_le; lia).
        replace (i =? k)%nat with false by (symmetry; apply Nat.eqb_neq; lia).
        replace (S k + length fs)%nat with (k + S (length fs))%nat by lia.
        replace (i - k)%nat with (S (i - S k)) by lia. reflexivity.
    + destruct (IH (S k) bins ltac:(lia)) as (kept & Hrun & Hlen & Hnth).
      exists kept. split; [exact Hrun |]. split; [exact Hlen |].
      intro i. rewrite Hnth.
      destruct (Nat.lt_trichotomy i k) as [Hi | [Hi | Hi]].
      * replace (S k <=? i)%nat with false by (symmetry; apply Nat.leb_gt; lia).
        replace (k <=? i)%nat with false by (symmetry; apply Nat.leb_gt; lia).
        reflexivity.
      * subst i.
        replace (S k <=? k)%nat with false by (symmetry; apply Nat.leb_gt; lia).
        rewrite Nat.leb_refl.
        replace (k <? k + S (length fs))%nat with true
          by (symmetry; apply Nat.ltb_lt; lia).
        rewrite Nat.sub_diag. cbn [andb nth]. rewrite Eout. reflexivity.
      * replace (S k <=? i)%nat with true by (symmetry; apply Nat.leb_le; lia).
        replace (k <=? i)%nat with true by (symmetry; apply Nat.leb_le; lia).
        replace (S k + length fs)%nat with (k + S (length fs))%nat by lia.
        replace (i - k)%nat with (S (i - S k)) by lia. reflexivity.
Qed.

Lemma fftfreq_length (n : nat) (u : list Q) :
  fftfreq n = Ok u -> length u = n.
Proof.
  unfold fftfreq. destruct (n =? 0)%nat eqn:E; [discriminate |].
  apply Nat.eqb_neq in E. intro H. injection H as <-.
  rewrite length_map, length_app, !length_map, !length_seq.
  pose proof (Nat.div_mod_eq n 2) as Hn.
  pose proof (Nat.div_mod_eq (n - 1) 2) as Hm.
  pose proof (Nat.mod_upper_bound n 2 ltac:(lia)).
  pose proof (Nat.mod_upper_bound (n - 1) 2 ltac:(lia)).
  change (fst (Nat.divmod (n - 1) 1 0 1)) with ((n - 1) / 2)%nat.
  change (fst (Nat.divmod n 1 0 1)) with (n / 2)%nat.
  lia.
Qed.



Lemma IFFT_filter_length (sp : ops) (Signal : list Q) (SF lo hi : Q)
    (r : list (sample sp)) :
  (forall l b, fft sp l = Ok b -> length b = length l) ->
  (forall b r, ifft sp b = Ok r -> length r = length b) ->
  IFFT_filter sp Signal SF lo hi = Ok r ->
  length r = length Signal.
Proof.
  intros Hfft Hifft H. unfold IFFT_filter in H.
  destruct (fft sp Signal) as [bins |] eqn:Eb; [| discriminate].
  cbn [bind] in H.
  destruct (fftfreq (length Signal)) as [u |] eqn:Hu; [| discriminate].
  cbn [bind] in H.
  pose proof (fftfreq_length _ _ Hu) as Hul.
  pose proof (Hfft _ _ Eb) as Hbl.
  set (freqs := map (fun f => f * SF) u) in H.
  assert (Hfl : length freqs = length Signal)
    by (unfold freqs; rewrite length_map; exact Hul).
  destruct (zero_bins_run sp lo hi freqs 0 bins ltac:(lia))
    as (kept & Hrun & Hkl & _).
  unfold Collisions.enumerate in H. rewrite Hrun in H. cbn [bind] in H.
  destruct (ifft sp kept) as [fs |] eqn:Ei; [| discriminate].
  cbn [bind] in H. injection H as <-.
  rewrite length_map, (Hifft _ _ Ei). lia.
Qed.

Lemma slice_length {X : Type} (l : list X) (lo hi : nat) :
  length (slice l lo hi) = Nat.min (hi - lo) (length l - lo).
Proof. unfold slice. rewrite length_firstn, length_skipn. reflexivity. Qed.

(** X15. When the time and voltage arrays have one length and the
    transform and its inverse keep the length of their argument, the
    three channels and the time axis that [get_ZXY_data_IFFT] returns
    have one length. *)
Theorem get_ZXY_data_IFFT_equal_lengths (sp : ops) (Data : DataObject)
    (zf xf yf zwidth xwidth ywidth : Q) (timeStart timeEnd : option Q)
    (ShowFig : bool)
    (zdata xdata ydata : list (sample sp)) (timedata : list Q) :
  length (time Data) = length (voltage Data) ->
  (forall l b, fft sp l = Ok b -> length b = length l) ->
  (forall b r, ifft sp b = Ok r -> length r = length b) ->
  get_ZXY_data_IFFT sp Data zf xf yf zwidth xwidth ywidth
                    timeStart timeEnd ShowFig
  = Ok (zdata, xdata, ydata, timedata) ->
  length zdata = length timedata /\
  length xdata = length timedata /\
  length ydata = length timedata.
Proof.
  intros Hlen Hfft Hifft H. unfold get_ZXY_data_IFFT in H.
  destruct (time_window Data timeStart timeEnd) as [[StartIndex EndIndex] |];
    [| discriminate].
  cbn [bind] in H.
  destruct (IFFT_filter sp _ _ (zf - zwidth / 2) _) as [z |] eqn:Ez;
    [| discriminate].
  cbn [bind] in H.
  destruct (IFFT_filter sp _ _ (xf - zwidth / 2) _) as [x |] eqn:Ex;
    [| discriminate].
  cbn [bind] in H.
  destruct (IFFT_filter sp _ _ (yf - zwidth / 2) _) as [y |] eqn:Ey;
    [| discriminate].
  cbn [bind] in H. injection H as <- <- <- <-.
  apply (IFFT_filter_length sp _ _ _ _ _ Hfft Hifft) in Ez, Ex, Ey.
  rewrite Ez, Ex, Ey, !slice_length, Hlen. auto.
Qed.

Lemma get_ZXY_data_IFFT_equal_lengths_witness :
  length [Some 2; Some 4; Some 6; Some 8; Some 0; Some 0; Some 14]
  = length [0; 1; 2; 3; 4; 5; 6] /\
  length [Some 2; Some 4; Some 6; Some 8; Some 0; Some 0; Some 0]
  = length [0; 1; 2; 3; 4; 5; 6] /\
  length [Some 0; Some 4; Some 6; Some 8; Some 0; Some 0; Some 0]
  = length [0; 1; 2; 3; 4; 5; 6].
Proof.
  apply (get_ZXY_data_IFFT_equal_lengths passthrough recording 1 2 3 4 2 2
           None None false).
  - reflexivity.
  - intros l b H. injection H as <-. reflexivity.
  - intros b r H. injection H as <-. reflexivity.
  - vm_compute. reflexivity.
Defined.

Lemma closest_index_parts (l : list Q) (x : Q) (i : nat) :
  Fit.closest_index l x = Ok i ->
  exists v, Locator.take_closest l x = Ok v /\ index l v = Ok i.
Proof.
  unfold Fit.closest_index.
  destruct (Locator.take_closest l x) as [v |]; [| discriminate].
  cbn [bind]. intro H. exists v. split; [reflexivity | exact H].
Qed.

(** X16. With both bounds left at their default, on a strictly ascending
    non-empty time axis, the window is [(0, len - 1)]: the slice
    [StartIndex:EndIndex] that it cuts stops before the last sample. *)
Theorem default_time_window (Data : DataObject) :
  StronglySorted Qlt (time Data) -> time Data <> [] ->
  time_window Data None None = Ok (0%nat, (length (time Data) - 1)%nat) /\
  length (slice (time Data) 0 (length (time Data) - 1))
  = (length (time Data) - 1)%nat.
Proof.
  intros Hs Hne.
  assert (Hlen : (0 < length (time Data))%nat)
    by (destruct (time Data); [congruence | simpl; lia]).
  split.
  - unfold time_window.
    change (getitem (time Data) 0) with (getitem (time Data) (Z.of_nat 0)).
    rewrite (getitem_nat (time Data) 0 0 Hlen).
    rewrite (getitem_last (time Data) 0 Hne). cbn [bind].
    destruct (closest_index_parts _ _ _
                (closest_index_at (time Data) 0 Hs Hlen)) as (v0 & Hv0 & Hi0).
    rewrite Hv0. cbn [bind]. rewrite Hi0. cbn [bind].
    destruct (closest_index_parts _ _ _
                (closest_index_at (time Data) (length (time Data) - 1) Hs
                   ltac:(lia))) as (v1 & Hv1 & Hi1).
    rewrite Hv1. cbn [bind]. rewrite Hi1. reflexivity.
  - rewrite slice_length. lia.
Qed.

Lemma default_time_window_witness :
  time_window recording None None
  = Ok (0%nat, (length (time recording) - 1)%nat).
Proof.
  apply (proj1 (default_time_window recording
                  ltac:(repeat constructor; unfold Qlt; simpl; lia)
                  ltac:(discriminate))).
Defined.

End TransformFacts.

Module InvariantFacts.

Import SciPy Data Fit FitFacts.
Local Open Scope Q_scope.

Lemma same_recording_refl (d : DataObject) : same_recording d d.
Proof. repeat split. Qed.

Lemma same_recording_trans (d1 d2 d3 : DataObject) :
  same_recording d1 d2 -> same_recording d2 d3 -> same_recording d1 d3.
Proof.
  intros (A1 & B1 & C1 & D1 & E1) (A2 & B2 & C2 & D2 & E2).
  repeat split; congruence.
Qed.

Lemma keeps_ret {X : Type} (x : X) : keeps_recording (ret x).
Proof. intro s. apply same_recording_refl. Qed.

Lemma keeps_lift {X : Type} (r : result X) : keeps_recording (lift r).
Proof. intro s. apply same_recording_refl. Qed.

Lemma keeps_warn (msg : string) : keeps_recording (warn msg).
Proof. intro s. apply same_recording_refl. Qed.

Lemma keeps_self : keeps_recording self.
Proof. intro s. apply same_recording_refl. Qed.

Lemma keeps_bind {X Y : Type} (c : M X) (k : X -> M Y) :
  keeps_recording c -> (forall x, keeps_recording (k x)) ->
  keeps_recording (mbind c k).
Proof.
  intros Hc Hk s. unfold mbind. specialize (Hc s).
  destruct (c s) as [[x | e] s1]; cbn [fst snd] in *; [| exact Hc].
  eapply same_recording_trans; [exact Hc | apply Hk].
Qed.

Lemma keeps_try {X : Type} (c handler : M X) (catches : exn -> bool) :
  keeps_recording c -> keeps_recording handler ->
  keeps_recording (try_except c catches handler).
Proof.
  intros Hc Hh s. unfold try_except. specialize (Hc s).
  destruct (c s) as [[x | e] s1]; cbn [fst snd] in *; [exact Hc |].
  destruct (catches e); cbn [fst snd]; [| exact Hc].
  eapply same_recording_trans; [exact Hc | apply Hh].
Qed.

Lemma keeps_attribute {X : Type} (name : string) (field : DataObject -> option X) :
  keeps_recording (attribute name field).
Proof.
  unfold attribute. apply keeps_bind; [apply keeps_self |].
  intro d. destruct (field d); [apply keeps_ret | apply keeps_lift].
Qed.

Lemma keeps_set_A (u : ufloat) : keeps_recording (set_A u).
Proof. intro s. repeat split. Qed.

Lemma keeps_set_Ftrap (u : ufloat) : keeps_recording (set_Ftrap u).
Proof. intro s. repeat split. Qed.

Lemma keeps_set_Gamma (u : ufloat) : keeps_recording (set_Gamma u).
Proof. intro s. repeat split. Qed.

Ltac keeps_with known :=
  repeat match goal with
         | |- keeps_recording (ret _) => apply keeps_ret
         | |- keeps_recording (lift _) => apply keeps_lift
         | |- keeps_recording (warn _) => apply keeps_warn
         | |- keeps_recording self => apply keeps_self
         | |- keeps_recording (attribute _ _) => apply keeps_attribute
         | |- keeps_recording (set_A _) => apply keeps_set_A
         | |- keeps_recording (set_Ftrap _) => apply keeps_set_Ftrap
         | |- keeps_recording (set_Gamma _) => apply keeps_set_Gamma
         | |- keeps_recording (mbind _ _) => apply keeps_bind; [| intro]
         | |- keeps_recording (try_except _ _ _) => apply keeps_try
         | |- keeps_recording (if _ then _ else _) =>
             match goal with |- context [if ?b then _ else _] => destruct b end
         | |- keeps_recording (let '(_, _) := ?x in _) => destruct x
         | |- keeps_recording (match ?x with Ok _ => _ | Raise _ => _ end) =>
             destruct x
         | |- keeps_recording (match ?e with IndexError => _ | _ => _ end) =>
             destruct e
         | |- _ => known
         end.

Ltac keeps := keeps_with fail.

Lemma keeps_get_fit (sp : ops) (TrapFreq Width Ai Gi : Q) (nm : nat)
    (Si Mf Sf : bool) :
  keeps_recording (get_fit sp TrapFreq Width Ai Gi nm Si Mf Sf).
Proof. unfold get_fit. keeps. Qed.

Lemma keeps_get_fit_from_peak (sp : ops) (lo hi : Q) (nps : nat) (Si Sh : bool) :
  keeps_recording (get_fit_from_peak sp lo hi nps Si Sh).
Proof.
  unfold get_fit_from_peak, return_nan.
  keeps_with ltac:(apply keeps_get_fit).
Qed.

Lemma keeps_trial (sp : ops) (C Width : Q) : keeps_recording (trial sp C Width).
Proof. unfold trial. keeps_with ltac:(apply keeps_get_fit_from_peak). Qed.

Lemma keeps_search (sp : ops) (C : Q) (ws : list Q) :
  forall Min Best, keeps_recording (search sp C ws Min Best).
Proof.
  induction ws as [| x ws IH]; intros Min Best; cbn [search].
  - keeps.
  - keeps_with ltac:(first [apply keeps_trial | apply IH]).
Qed.

(** X17. Fitting never touches the data it fits: whatever they return or
    raise, [get_fit], [get_fit_from_peak] and [get_fit_auto] leave the
    time, voltage, sample frequency, frequency and PSD attributes of the
    data object as they found them (only [A], [Ftrap] and [Gamma] are
    assigned). *)
Theorem fitting_keeps_recording (sp : ops) :
  (forall TrapFreq Width Ai Gi nm Si Mf Sf,
      keeps_recording (get_fit sp TrapFreq Width Ai Gi nm Si Mf Sf)) /\
  (forall lo hi nps Si Sh,
      keeps_recording (get_fit_from_peak sp lo hi nps Si Sh)) /\
  (forall C MaxWidth MinWidth W ShowFig,
      keeps_recording (get_fit_auto sp C MaxWidth MinWidth W ShowFig)).
Proof.
  split; [intros; apply keeps_get_fit |].
  split; [intros; apply keeps_get_fit_from_peak |].
  intros. unfold get_fit_auto.
  keeps_with ltac:(first [apply keeps_search | apply keeps_get_fit_from_peak]).
Qed.

End InvariantFacts.

Module FitOutcomeFacts.

Import SciPy Data Fit FitFacts.
Local Open Scope Q_scope.

(** X18. Once the window and both half-maximum sides have been located,
    [get_fit_from_peak] asks for a fit over the bandwidth
    [(upperLimit - lowerLimit)/2] around the peak frequency, with the
    initial guesses [A = MaxPSD * 1e16] and [Gamma = FWHM/4]. A
    [TypeError] of the fit becomes the warning "range is too small to fit"
    and three NaN values; any other exception of the fit, a
    non-convergence [RuntimeError] included, leaves the method as it is;
    and a fit that returns is stored and handed back in the order
    [(Ftrap, A, Gamma)]. *)
Theorem get_fit_from_peak_fit_outcome (sp : ops) (d : DataObject)
    (w : list string) (lowerLimit upperLimit : Q) (nps : nat) (Si Sh : bool)
    (li ui ci Li Ri : nat) (MaxPSD CentralFreq MinPSD Lf Rf : Q) :
  closest_index (freqs d) lowerLimit = Ok li ->
  closest_index (freqs d) upperLimit = Ok ui ->
  li <> ui ->
  locate_peak (freqs d) (PSD d) li ui = Ok (MaxPSD, CentralFreq, ci, MinPSD) ->
  half_max_side (freqs d) (PSD d) li ci (MinPSD + (MaxPSD - MinPSD) / 2)
  = Ok (Li, Lf) ->
  half_max_side (freqs d) (PSD d) ci ui (MinPSD + (MaxPSD - MinPSD) / 2)
  = Ok (Ri, Rf) ->
  let fit := fit_PSD sp (freqs d) (PSD d) ((upperLimit - lowerLimit) / 2) 1
                     CentralFreq (MaxPSD * 1e16) ((Rf - Lf) / 4) in
  let call := get_fit_from_peak sp lowerLimit upperLimit nps Si Sh (d, w) in
  (fit = Raise TypeError ->
   call = (Ok (nan_val, nan_val, nan_val), (d, w ++ [too_small_to_fit]))) /\
  (forall e, fit = Raise e -> e <> TypeError -> call = (Raise e, (d, w))) /\
  (forall P0 P1 P2 E0 E1 E2 a f g,
      fit = Ok ((P0, P1, P2), (E0, E1, E2)) ->
      mk_ufloat P0 E0 = Ok a -> mk_ufloat P1 E1 = Ok f ->
      mk_ufloat P2 E2 = Ok g ->
      call = (Ok (f, a, g), (with_fit d a f g, w))).
Proof.
  intros Hlo Hhi Hne Hpeak Hleft Hright fit call.
  assert (Hcall : call
    = (let '(r, s') :=
         try_except
           (_ <~ get_fit sp CentralFreq ((upperLimit - lowerLimit) / 2)
                         (MaxPSD * 1e16) ((Rf - Lf) / 4) 1 Si Sh Sh ;;
            ret false)
           is_TypeError (ret true) (d, w) in
       match r with
       | Ok caught =>
           (if caught : bool then return_nan too_small_to_fit
            else
              FTrap <~ attribute "Ftrap" Ftrap ;;
              A <~ attribute "A" A ;;
              Gamma <~ attribute "Gamma" Gamma ;;
              ret (FTrap, A, Gamma)) s'
       | Raise e => (Raise e, s')
       end)).
  { unfold call, get_fit_from_peak. run_monad. rewrite Hlo, Hhi.
    replace (li =? ui)%nat with false by (symmetry; apply Nat.eqb_neq; exact Hne).
    rewrite Hpeak, Hleft, Hright. run_monad.
    destruct (get_fit sp _ _ _ _ 1 Si Sh Sh (d, w)) as [[x | e] s1];
      [reflexivity |].
    destruct (is_TypeError e); reflexivity. }
  rewrite Hcall. clear Hcall. unfold get_fit. run_monad. fold fit.
  split; [| split].
  - intros ->. reflexivity.
  - intros e -> He. destruct e; try reflexivity. congruence.
  - intros P0 P1 P2 E0 E1 E2 a f g -> Ha Hf Hg.
    run_monad. rewrite Ha. run_monad. rewrite Hf. run_monad. rewrite Hg.
    reflexivity.
Qed.

Lemma get_fit_from_peak_fit_outcome_witness :
  get_fit_from_peak passthrough (34 # 10) (52 # 10) 1 true false (spectrum, [])
  = (Raise RuntimeError, (spectrum, [])).
Proof.
  apply (proj1 (proj2 (get_fit_from_peak_fit_outcome
                         passthrough spectrum [] (34 # 10) (52 # 10) 1 true
                         false 2 4 3 2 3 9 4 5 3 4
                         eq_refl eq_refl ltac:(discriminate)
                         eq_refl eq_refl eq_refl))).
  - reflexivity.
  - discriminate.
Defined.

End FitOutcomeFacts.

Module SearchFacts.

Import SciPy Data Fit FitFacts.
Local Open Scope Q_scope.

(** *** The candidate widths *)




Lemma arange_empty (start stop step : Q) :
  (stop - start) / step <= 0 -> arange start stop step = [].
Proof.
  intro H. unfold arange.
  assert (Hc : (Qceiling ((stop - start) / step) <= 0)%Z).
  { change 0%Z with (Qceiling (inject_Z 0)) at 1.
    rewrite Qceiling_Z. rewrite <- (Qceiling_Z 0).
    apply Qceiling_resp_le. exact H. }
  replace (Z.to_nat (Qceiling ((stop - start) / step))) with 0%nat by lia.
  reflexivity.
Qed.

(** X20. With a positive step and [MaxWidth <= MinWidth - WidthIntervals]
    there is no candidate at all, and [get_fit_auto] raises
    [UnboundLocalError] without running a fit or changing its state. *)
Theorem get_fit_auto_no_candidate (sp : ops) (st : state)
    (C MaxWidth MinWidth W : Q) (ShowFig : bool) :
  0 < W -> MaxWidth <= MinWidth - W ->
  get_fit_auto sp C MaxWidth MinWidth W ShowFig st
  = (Raise (UnboundLocalError "BestWidth"), st).
Proof.
  intros HW Hle. unfold get_fit_auto.
  rewrite arange_empty; [reflexivity |].
  setoid_replace ((MinWidth - W - MaxWidth) / - W)
    with (- ((MinWidth - W - MaxWidth) / W)) by (field; lra).
  assert (0 <= (MinWidth - W - MaxWidth) / W)
    by (apply Qle_shift_div_l; lra).
  lra.
Qed.

Lemma get_fit_auto_no_candidate_witness :
  get_fit_auto passthrough 4 1 3 1 true (spectrum, [])
  = (Raise (UnboundLocalError "BestWidth"), (spectrum, [])).
Proof.
  apply (get_fit_auto_no_candidate passthrough (spectrum, []) 4 1 3 1 true).
  - reflexivity.
  - discriminate.
Defined.

(** *** The order in which the loop retains a candidate *)








(** *** Candidates that stop the search *)





End SearchFacts.

Module SpectrumFacts.

Import SciPy Data Locator Fit Spectrum.
Local Open Scope Q_scope.



Lemma where_from_spec (l : list Q) (x : Q) :
  forall k j,
    In j (where_from k l x)
    <-> (k <= j)%nat /\ (j < k + length l)%nat /\ nth (j - k) l 0 == x.
Proof.
  induction l as [| a l IH]; intros k j; cbn [where_from length].
  - split; [intros [] | intros (? & ? & _); lia].
  - assert (Htail : In j (where_from (S k) l x)
                    <-> (k < j)%nat /\ (j < k + S (length l))%nat
                        /\ nth (j - k) (a :: l) 0 == x).
    { rewrite IH. split.
      - intros (H1 & H2 & H3). split; [lia |]. split; [lia |].
        replace (j - k)%nat with (S (j - S k)) by lia. exact H3.
      - intros (H1 & H2 & H3). split; [lia |]. split; [lia |].
        replace (j - k)%nat with (S (j - S k)) in H3 by lia. exact H3. }
    destruct (Qeq_bool a x) eqn:E.
    + cbn [In]. rewrite Htail. split.
      * intros [<- | (H1 & H2 & H3)].
        -- split; [lia |]. split; [lia |]. rewrite Nat.sub_diag.
           apply Qeq_bool_iff. exact E.
        -- split; [lia |]. split; assumption.
      * intros (H1 & H2 & H3).
        destruct (Nat.eq_dec k j) as [-> | Hne]; [left; reflexivity |].
        right. split; [lia |]. split; assumption.
    + rewrite Htail. split.
      * intros (H1 & H2 & H3). split; [lia |]. split; assumption.
      * intros (H1 & H2 & H3).
        destruct (Nat.eq_dec k j) as [-> | Hne].
        -- rewrite Nat.sub_diag in H3. simpl in H3.
           apply Qeq_bool_iff in H3. congruence.
        -- split; [lia |]. split; assumption.
Qed.

Lemma np_where_spec (l : list Q) (x : Q) (j : nat) :
  In j (np_where l x) <-> (j < length l)%nat /\ nth j l 0 == x.
Proof.
  unfold np_where. rewrite where_from_spec, Nat.sub_0_r. simpl.
  split; [intros (_ & H & H'); auto | intros [H H']; repeat split; auto; lia].
Qed.

(** A value held at two positions is found more than once. *)
Lemma int_of_array_repeated (l : list Q) (x : Q) (i j : nat) :
  (i < j)%nat -> (j < length l)%nat -> nth i l 0 == x -> nth j l 0 == x ->
  int_of_array (np_where l x) = Raise TypeError.
Proof.
  intros Hij Hj Hi Hx.
  assert (Ini : In i (np_where l x)) by (apply np_where_spec; split; [lia | exact Hi]).
  assert (Inj : In j (np_where l x)) by (apply np_where_spec; split; [lia | exact Hx]).
  destruct (np_where l x) as [| a [| b rest]]; try reflexivity.
  destruct Ini as [<- | []]. destruct Inj as [E | []]. lia.
Qed.








(** X24. [calc_area_under_PSD] converts the positions of the closest
    frequency with [int]: when the frequency axis holds the closest
    frequency at two positions, the call raises [TypeError] instead of
    returning an area. *)
Theorem calc_area_under_PSD_repeated_frequency (d : DataObject)
    (lowerFreq upperFreq v : Q) (i j : nat) :
  take_closest (freqs d) lowerFreq = Ok v ->
  (i < j)%nat -> (j < length (freqs d))%nat ->
  nth i (freqs d) 0 == v -> nth j (freqs d) 0 == v ->
  calc_area_under_PSD d lowerFreq upperFreq = Raise TypeError.
Proof.
  intros Hv Hij Hj Hi Hx. unfold calc_area_under_PSD.
  rewrite Hv. cbn [bind].
  rewrite (int_of_array_repeated (freqs d) v i j Hij Hj Hi Hx).
  reflexivity.
Qed.

Lemma calc_area_under_PSD_repeated_frequency_witness :
  let d := {| time := []; voltage := []; SampleFreq := 1;
              freqs := [1; 2; 2; 3]; PSD := [4; 5; 6; 7];
              A := None; Ftrap := None; Gamma := None |} in
  calc_area_under_PSD d 2 3 = Raise TypeError.
Proof.
  intro d.
  apply (calc_area_under_PSD_repeated_frequency d 2 3 2 1 2).
  - reflexivity.
  - lia.
  - simpl. lia.
  - reflexivity.
  - reflexivity.
Defined.

(** *** The peak search of [get_ZXY_freqs] *)

Lemma slice_nth (l : list Q) (lo hi p : nat) :
  (lo <= p)%nat -> (p < hi)%nat -> (p < length l)%nat ->
  In (nth p l 0) (slice l lo hi).
Proof.
  intros Hlo Hhi Hp. unfold slice.
  replace (nth p l 0) with (nth (p - lo) (firstn (hi - lo) (skipn lo l)) 0).
  - apply nth_In. rewrite length_firstn, length_skipn. lia.
  - rewrite nth_firstn.
    replace (p - lo <? hi - lo)%nat with true
      by (symmetry; apply Nat.ltb_lt; lia).
    rewrite nth_skipn. f_equal. lia.
Qed.

Lemma slice_in (l : list Q) (lo hi : nat) (y : Q) :
  In y (slice l lo hi) ->
  exists p, (lo <= p)%nat /\ (p < hi)%nat /\ (p < length l)%nat /\
            nth p l 0 = y.
Proof.
  intro Hin. destruct (In_nth _ _ 0 Hin) as (k & Hk & Hy).
  rewrite TransformFacts.slice_length in Hk.
  exists (lo + k)%nat. repeat (split; [lia |]).
  rewrite <- Hy. unfold slice. rewrite nth_firstn.
  replace (k <? hi - lo)%nat with true by (symmetry; apply Nat.ltb_lt; lia).
  rewrite nth_skipn. reflexivity.
Qed.

Lemma running_max (t : list Q) :
  forall a,
    let r := fold_left (fun m x => if Qltb m x then x else m) t a in
    In r (a :: t) /\ a <= r /\ forall y, In y t -> y <= r.
Proof.
  induction t as [| x t IH]; intro a; cbn [fold_left].
  - split; [left; reflexivity |]. split; [lra | intros y []].
  - cbv zeta.
    destruct (Qltb a x) eqn:E.
    + apply LocatorFacts.Qltb_lt in E.
      destruct (IH x) as (Hin & Hle & Hall).
      split; [right; exact Hin |]. split; [lra |].
      intros y [<- | Hy]; [exact Hle | apply Hall, Hy].
    + assert (Hxa : x <= a).
      { destruct (Qlt_le_dec a x) as [H | H]; [| exact H].
        apply LocatorFacts.Qltb_lt in H. congruence. }
      destruct (IH a) as (Hin & Hle & Hall).
      split; [destruct Hin as [<- | Hin]; [left; reflexivity | right; right; exact Hin] |].
      split; [exact Hle |].
      intros y [<- | Hy]; [lra | apply Hall, Hy].
Qed.

Lemma pymax_spec (l : list Q) (m : Q) :
  pymax l = Ok m -> In m l /\ forall y, In y l -> y <= m.
Proof.
  destruct l as [| a t]; [discriminate |].
  cbn [pymax]. intro H. injection H as <-.
  destruct (running_max t a) as (Hin & Hle & Hall).
  split; [exact Hin |]. intros y [<- | Hy]; [exact Hle | apply Hall, Hy].
Qed.

Lemma take_all (a : list Q) (idx : list nat) :
  (forall i, In i idx -> (i < length a)%nat) ->
  take a idx = Ok (map (fun i => nth i a 0) idx).
Proof.
  induction idx as [| i idx IH]; intro Hall; [reflexivity |].
  cbn [take map].
  rewrite (LocatorFacts.getitem_nat a i 0) by (apply Hall; left; reflexivity).
  cbn [bind]. rewrite IH by (intros; apply Hall; right; assumption).
  reflexivity.
Qed.

Lemma int_of_array_in (w : list nat) (i : nat) :
  int_of_array w = Ok i -> In i w.
Proof.
  destruct w as [| a [| b rest]]; try discriminate.
  intro H. injection H as <-. left. reflexivity.
Qed.

Lemma fit_window_bound (D : DataObject) (bw f : Q) (lo hi : nat) :
  fit_window D bw f = Ok (lo, hi) ->
  (lo < length (freqs D))%nat /\ (hi < length (freqs D))%nat.
Proof.
  unfold fit_window. intro H.
  destruct (take_closest (freqs D) (f - bw / 2)) as [v |]; [| discriminate].
  destruct (take_closest (freqs D) (f + bw / 2)) as [u |]; [| discriminate].
  cbn [bind] in H.
  destruct (int_of_array (np_where (freqs D) v)) as [i |] eqn:Ei;
    [| discriminate].
  destruct (int_of_array (np_where (freqs D) u)) as [j |] eqn:Ej;
    [| discriminate].
  cbn [bind] in H. injection H as <- <-.
  apply int_of_array_in, np_where_spec in Ei.
  apply int_of_array_in, np_where_spec in Ej.
  split; [apply Ei | apply Ej].
Qed.

Lemma highest_peak_spec (D : DataObject) (bw f : Q) (lo hi : nat) :
  length (PSD D) = length (freqs D) ->
  fit_window D bw f = Ok (lo, hi) -> (lo < hi)%nat ->
  exists E, highest_peak D bw f = Ok E /\ peak_of D bw f E.
Proof.
  intros Hlen Hw Hlt.
  destruct (fit_window_bound D bw f lo hi Hw) as [Hlo Hhi].
  unfold highest_peak. rewrite Hw. cbn [bind].
  destruct (pymax (slice (PSD D) lo hi)) as [m | e] eqn:Em.
  - cbn [bind].
    destruct (pymax_spec _ _ Em) as [Hin Hmax].
    destruct (slice_in _ _ _ _ Hin) as (p & Hp1 & Hp2 & Hp3 & Hp4).
    rewrite take_all
      by (intros i Hi; apply np_where_spec in Hi; rewrite <- Hlen; apply Hi).
    eexists. split; [reflexivity |].
    exists lo, hi, m. split; [exact Hw |].
    split; [exists p; auto |].
    split.
    { intros q Hq1 Hq2. apply Hmax, slice_nth; lia. }
    split.
    { assert (Hp : In p (np_where (PSD D) m)).
      { apply np_where_spec. split; [exact Hp3 | rewrite Hp4; reflexivity]. }
      destruct (np_where (PSD D) m); [destruct Hp | discriminate]. }
    intro v. rewrite in_map_iff. split.
    + intros (i & Hv & Hi). apply np_where_spec in Hi.
      exists i. split; [rewrite <- Hlen; apply Hi |]. split; [exact Hv | apply Hi].
    + intros (i & Hi & Hv & Hm). exists i. split; [exact Hv |].
      apply np_where_spec. split; [rewrite Hlen; exact Hi | exact Hm].
  - exfalso. assert (Hne : slice (PSD D) lo hi <> []).
    { intro E0. pose proof (slice_nth (PSD D) lo hi lo) as H.
      rewrite E0 in H. apply H; lia. }
    destruct (slice (PSD D) lo hi); [congruence | discriminate].
Qed.

Lemma each_peak_spec (D : DataObject) (bw : Q) (approx : list Q) :
  (forall f, In f approx -> exists E, highest_peak D bw f = Ok E) ->
  forall acc,
  exists Es,
    each_peak D bw approx acc = Ok (acc ++ Es) /\
    length Es = length approx /\
    forall f E, In (f, E) (combine approx Es) -> highest_peak D bw f = Ok E.
Proof.
  induction approx as [| f approx IH]; intros Hall acc.
  - exists []. rewrite app_nil_r. split; [reflexivity |].
    split; [reflexivity | intros ? ? []].
  - destruct (Hall f (or_introl eq_refl)) as [E HE].
    destruct (IH (fun g Hg => Hall g (or_intror Hg)) (acc ++ [E]))
      as (Es & Hrun & Hlen & Hpairs).
    exists (E :: Es). cbn [each_peak]. rewrite HE. cbn [bind].
    rewrite Hrun, <- app_assoc. split; [reflexivity |].
    split; [simpl; rewrite Hlen; reflexivity |].
    intros g G [Heq | Hin].
    + injection Heq as <- <-. exact HE.
    + apply Hpairs, Hin.
Qed.

(** X25. [get_ZXY_freqs] answers each approximate frequency with an
    array, not with one frequency. When the PSD and the frequency axis
    have one length and each of the three search windows spans at least
    one bin, the call returns three arrays, in the order z, x, y. Each is
    not empty and holds the frequencies of exactly those bins of the whole
    spectrum whose PSD equals the largest PSD inside the window, so a bin
    outside the window with that PSD is returned as well. *)
Theorem get_ZXY_freqs_peaks (D : DataObject) (zfreq xfreq yfreq bandwidth : Q) :
  length (PSD D) = length (freqs D) ->
  (forall f, In f [zfreq; xfreq; yfreq] ->
             exists lo hi, fit_window D bandwidth f = Ok (lo, hi) /\
                           (lo < hi)%nat) ->
  exists Z X Y,
    get_ZXY_freqs D zfreq xfreq yfreq bandwidth = Ok [Z; X; Y] /\
    peak_of D bandwidth zfreq Z /\
    peak_of D bandwidth xfreq X /\
    peak_of D bandwidth yfreq Y.
Proof.
  intros Hlen Hwin.
  assert (Hpeak : forall f, In f [zfreq; xfreq; yfreq] ->
            exists E, highest_peak D bandwidth f = Ok E /\
                      peak_of D bandwidth f E).
  { intros f Hf. destruct (Hwin f Hf) as (lo & hi & Hw & Hlt).
    apply (highest_peak_spec D bandwidth f lo hi Hlen Hw Hlt). }
  destruct (Hpeak zfreq) as (Z & HZ & PZ); [simpl; auto |].
  destruct (Hpeak xfreq) as (X & HX & PX); [simpl; auto |].
  destruct (Hpeak yfreq) as (Y & HY & PY); [simpl; auto |].
  exists Z, X, Y. unfold get_ZXY_freqs. cbn [each_peak].
  rewrite HZ. cbn [bind]. rewrite HX. cbn [bind]. rewrite HY. cbn [bind].
  auto.
Qed.

Lemma get_ZXY_freqs_peaks_witness :
  let D := {| time := []; voltage := []; SampleFreq := 1;
              freqs := [1; 2; 3; 4; 5; 6; 7];
              PSD := [1; 9; 5; 9; 4; 2; 9];
              A := None; Ftrap := None; Gamma := None |} in
  exists Z X Y,
    get_ZXY_freqs D 2 4 5 2 = Ok [Z; X; Y] /\
    peak_of D 2 2 Z /\ peak_of D 2 4 X /\ peak_of D 2 5 Y.
Proof.
  intro D.
  apply (get_ZXY_freqs_peaks D 2 4 5 2 eq_refl).
  intros f [<- | [<- | [<- | []]]].
  - exists 0%nat, 2%nat. split; [reflexivity | lia].
  - exists 2%nat, 4%nat. split; [reflexivity | lia].
  - exists 3%nat, 5%nat. split; [reflexivity | lia].
Defined.

Example get_ZXY_freqs_outside_window :
  let D := {| time := []; voltage := []; SampleFreq := 1;
              freqs := [1; 2; 3; 4; 5; 6; 7];
              PSD := [1; 9; 5; 9; 4; 2; 9];
              A := None; Ftrap := None; Gamma := None |} in
  get_ZXY_freqs D 2 4 5 2 = Ok [[2; 4; 7]; [2; 4; 7]; [2; 4; 7]].
Proof. reflexivity. Qed.

(** *** Phase space *)

(** X26. [plot_phase_space] never returns. Its first statement calls
    [get_ZXY_data], which ends in an exception on every input, so none of
    the statements after the call runs; with a valid default time window
    and a sub-sampling divisor other than zero the exception is the
    [NameError] for [IIRFilterDesign]. *)
Theorem plot_phase_space_never_returns {X : Type} (sp : ops)
    (plotting : list (sample sp) * list (sample sp) * list (sample sp)
                * list Q -> result X)
    (self : DataObject) (zf xf yf : Q) (FractionOfSampleFreq : nat)
    (zwidth xwidth ywidth : Q) (ShowFig : bool) :
  let call := plot_phase_space sp plotting self zf xf yf FractionOfSampleFreq
                               zwidth xwidth ywidth ShowFig in
  returns call = false /\
  (returns (ZXY.time_window self None None) = true ->
   FractionOfSampleFreq <> 0%nat ->
   call = Raise (NameError "IIRFilterDesign")).
Proof.
  cbv zeta. unfold plot_phase_space, ZXY.get_ZXY_data.
  destruct (ZXY.time_window self None None) as [[StartIndex EndIndex] | e];
    cbn [bind returns]; [| split; [reflexivity | discriminate]].
  destruct (pydiv _ _) as [q |] eqn:Ediv; cbn [bind returns String.eqb].
  - destruct (ZXY.window _ _ _ _) eqn:Ew; cbn [bind returns];
      (split; [reflexivity | intros _ HF]); [reflexivity |].
    unfold ZXY.window in Ew.
    destruct (FractionOfSampleFreq =? 0)%nat eqn:E;
      [apply Nat.eqb_eq in E; contradiction | discriminate].
  - split; [reflexivity | intros _ HF].
    unfold pydiv in Ediv.
    destruct (Qeq_bool (inject_Z (Z.of_nat FractionOfSampleFreq)) 0) eqn:E;
      [| discriminate].
    apply Qeq_bool_iff in E. unfold Qeq, inject_Z in E. simpl in E. lia.
Qed.

Lemma plot_phase_space_never_returns_witness :
  plot_phase_space passthrough (fun _ => Ok tt) ZXY.recording
                   1 80000 120000 4 10000 5000 5000 true
  = Raise (NameError "IIRFilterDesign").
Proof.
  apply (proj2 (plot_phase_space_never_returns passthrough (fun _ => Ok tt)
                  ZXY.recording 1 80000 120000 4 10000 5000 5000 true)).
  - reflexivity.
  - discriminate.
Defined.

End SpectrumFacts.
